(** * Universal planning agent: a shallow embedding and its properties

    The development embeds the console agent of
    [python-autonomous-agent.py] (class [UniversalPlanningAgent] with its
    two simulated services [ResourceAPI] and [EnvironmentAPI]) and the
    simulation of the browser variant [app.py].

    Python [float]s are IEEE-754 binary64 numbers; they are modelled by the
    executable specification of the Standard Library ([SpecFloat]) at
    precision 53 and maximal exponent 1024, so that every product below is
    rounded exactly as the interpreter rounds it.  Python [int]s are [Z].
    Dictionaries with string keys are [gmap string _].  The pseudo-random
    generator and the wall clock are oracles threaded through a state and
    exception monad together with the heap that holds the (mutable,
    shared) decision log of every agent.  Console output is not observed
    by any property below and is left out. *)

From Stdlib Require Import ZArith Lia Bool.
From Stdlib Require Import SpecFloat.
From stdpp Require Import base strings gmap list.

Local Open Scope Z_scope.

(** ** Numbers *)

Module Float64.

Definition prec : Z := 53.
Definition emax : Z := 1024.

Definition fmul : spec_float -> spec_float -> spec_float := SFmul prec emax.
Definition fdiv : spec_float -> spec_float -> spec_float := SFdiv prec emax.
Definition fltb : spec_float -> spec_float -> bool := SFltb.
Definition valid : spec_float -> bool := valid_binary prec emax.

(** Nearest binary64 number to an integer (ties to even); the result is
    an infinity when the integer is out of range. *)
Definition of_Z (z : Z) : spec_float := binary_normalize prec emax z 0 false.

(** A decimal literal [n/d] denotes the binary64 number nearest to it,
    which is what a correctly rounded division of two exactly
    representable integers returns. *)
Definition literal (n d : Z) : spec_float := fdiv (of_Z n) (of_Z d).

Definition f1_0 : spec_float := Eval vm_compute in literal 10 10.
Definition f1_2 : spec_float := Eval vm_compute in literal 12 10.
Definition f1_3 : spec_float := Eval vm_compute in literal 13 10.
Definition f1_5 : spec_float := Eval vm_compute in literal 15 10.
Definition f1_6 : spec_float := Eval vm_compute in literal 16 10.
Definition f0_8 : spec_float := Eval vm_compute in literal 8 10.

(** Truncation toward zero of a finite number. *)
Definition trunc (f : spec_float) : Z :=
  match f with
  | S754_finite s m e =>
      cond_Zopp s (if 0 <=? e then Z.pos m * 2 ^ e else Z.pos m / 2 ^ (- e))
  | _ => 0
  end.

End Float64.

Import Float64.

(** A Python number is an [int] or a [float]. *)
Inductive pynum : Type :=
  | PyInt (z : Z)
  | PyFloat (f : spec_float).

(** The values a task request carries. *)
Inductive pyval : Type :=
  | VStr (s : string)
  | VNum (n : pynum).

(** The exceptions the modelled code can raise. *)
Inductive exn : Type :=
  | TypeError
  | KeyError
  | IndexError
  | OverflowError
  | ValueError.

Definition VInt (z : Z) : pyval := VNum (PyInt z).
Definition VFloat (f : spec_float) : pyval := VNum (PyFloat f).

(** [x > 0] for a number [x]: exact on [int], IEEE on [float] (false on
    a NaN). *)
Definition num_gt0 (x : pynum) : bool :=
  match x with
  | PyInt z => 0 <? z
  | PyFloat f => fltb (S754_zero false) f
  end.

(** [x > 0] for an arbitrary value: ordering a [str] against an [int]
    raises [TypeError]. *)
Definition py_gt0 (x : pyval) : exn + bool :=
  match x with
  | VStr _ => inl TypeError
  | VNum n => inr (num_gt0 n)
  end.

(** Computations that may raise: the error monad on [exn + _]. *)
Definition ebind {A B : Type} (m : exn + A) (k : A -> exn + B) : exn + B :=
  match m with
  | inl e => inl e
  | inr a => k a
  end.

Notation "'do' x <- m ; k" := (ebind m (fun x => k))
  (at level 10, x name, m at level 100, k at level 200).

(** [float(z)] for an [int] operand of a mixed product: too large an
    integer raises [OverflowError]. *)
Definition float_of_int (z : Z) : exn + spec_float :=
  match of_Z z with
  | S754_infinity _ => inl OverflowError
  | f => inr f
  end.

(** [x * c] for a number [x] and a [float] [c]. *)
Definition num_mul_float (x : pynum) (c : spec_float) : exn + spec_float :=
  match x with
  | PyInt z => do f <- float_of_int z; inr (fmul f c)
  | PyFloat f => inr (fmul f c)
  end.

(** [x * c] for an arbitrary value [x] and a [float] [c]; a [str] times a
    [float] raises [TypeError]. *)
Definition py_mul_float (x : pyval) (c : spec_float) : exn + spec_float :=
  match x with
  | VStr _ => inl TypeError
  | VNum n => num_mul_float n c
  end.

(** [int(f)]: truncation toward zero; [OverflowError] on an infinity and
    [ValueError] on a NaN. *)
Definition py_int (f : spec_float) : exn + Z :=
  match f with
  | S754_infinity _ => inl OverflowError
  | S754_nan => inl ValueError
  | _ => inr (trunc f)
  end.

(** ** Requirement calculation (console variant) *)

(** [complexity_map = {"low": 1.0, "medium": 1.3, "high": 1.6}] *)
Definition complexity_map : gmap string spec_float :=
  {[ "low" := f1_0; "medium" := f1_3; "high" := f1_6 ]}.

(** [d.get(key, dflt)] on a dictionary whose keys are strings: a key that
    is not a string is never found. *)
Definition dict_get {A : Type} (d : gmap string A) (key : pyval) (dflt : A) : A :=
  match key with
  | VStr s => default dflt (d !! s)
  | VNum _ => dflt
  end.

(** The [if distance > 0 / elif duration > 0 / else] cascade that picks
    the base requirement; the default base is the [int] 30. *)
Definition base_requirement (distance duration : pyval) : exn + pynum :=
  do by_distance <- py_gt0 distance;
  if by_distance then
    do b <- py_mul_float distance f1_5; inr (PyFloat b)
  else
    do by_duration <- py_gt0 duration;
    if by_duration then
      do b <- py_mul_float duration f0_8; inr (PyFloat b)
    else inr (PyInt 30).

(** [UniversalPlanningAgent.calculate_resource_requirement]. *)
Definition calculate_resource_requirement
    (distance complexity duration : pyval) : exn + Z :=
  let multiplier := dict_get complexity_map complexity f1_3 in
  do base <- base_requirement distance duration;
  do scaled <- num_mul_float base multiplier;
  let total_required := fmul scaled f1_2 in
  py_int total_required.

(** ** Load computation of the browser variant ([app.py]) *)

Definition is_space (c : Ascii.ascii) : bool :=
  match Ascii.nat_of_ascii c with
  | 9%nat | 10%nat | 11%nat | 12%nat | 13%nat
  | 28%nat | 29%nat | 30%nat | 31%nat | 32%nat => true
  | _ => false
  end.

Fixpoint take_word (s : string) : string :=
  match s with
  | EmptyString => EmptyString
  | String c s' => if is_space c then EmptyString else String c (take_word s')
  end.

(** [[i for i in s.split() if i][0]]: the first whitespace-delimited word
    of [s]; indexing the empty list raises [IndexError]. *)
Fixpoint first_word (s : string) : exn + string :=
  match s with
  | EmptyString => inl IndexError
  | String c s' => if is_space c then first_word s' else inr (take_word s)
  end.

Definition ui_complexity_map : gmap string spec_float :=
  {[ "Low" := f1_0; "Medium" := f1_3; "High" := f1_6 ]}.

(** [d[key]]: a missing key raises [KeyError]. *)
Definition dict_index {A : Type} (d : gmap string A) (key : string) : exn + A :=
  match d !! key with
  | Some a => inr a
  | None => inl KeyError
  end.

(** [total = distance * 1.5 * complexity_factor] of the browser variant;
    [distance] is the integer of the slider and [complexity] the chosen
    label. *)
Definition ui_total (distance : Z) (complexity : string) : exn + spec_float :=
  do word <- first_word complexity;
  do complexity_factor <- dict_index ui_complexity_map word;
  do base <- num_mul_float (PyInt distance) f1_5;
  inr (fmul base complexity_factor).

(** ** Formatted text *)

(** An f-string is kept as its pieces: literal text and the values that
    are interpolated into it. *)
Inductive piece : Type :=
  | Lit (s : string)
  | Fmt (v : pyval)
  | FmtDict (d : gmap string pyval).

Definition fstring : Type := list piece.

(** ** World: random source, clock and heap *)

Record LogEntry : Type := mkLogEntry {
  timestamp : string;
  step : string;
  decision : fstring;
  reasoning : fstring
}.

(** [draws] is the sequence of raw outcomes of the random source and
    [cursor] the number of outcomes consumed so far; [clock] gives the
    text of the successive readings of the wall clock; [heap] maps the
    address of each decision-log list to its current contents. *)
Record world : Type := mkWorld {
  draws : nat -> nat;
  cursor : nat;
  clock : nat -> string;
  ticks : nat;
  heap : gmap nat (list LogEntry)
}.

(** State and exception monad. An exception keeps the state reached. *)
Definition M (A : Type) : Type := world -> (exn + A) * world.

Definition ret {A : Type} (a : A) : M A := fun w => (inr a, w).

Definition bind {A B : Type} (m : M A) (k : A -> M B) : M B :=
  fun w =>
    match m w with
    | (inl e, w') => (inl e, w')
    | (inr a, w') => k a w'
    end.

Definition lift {A : Type} (r : exn + A) : M A := fun w => (r, w).

Notation "'call' x <- m ; k" := (bind m (fun x => k))
  (at level 10, x name, m at level 100, k at level 200).
Notation "'exec' m ; k" := (bind m (fun _ => k))
  (at level 10, m at level 100, k at level 200).

(** [random._randbelow(n)] *)
Definition randbelow (n : nat) : M nat :=
  fun w =>
    (inr (draws w (cursor w) mod n)%nat,
     mkWorld (draws w) (S (cursor w)) (clock w) (ticks w) (heap w)).

(** [random.randint(a, b)]: an integer of [[a, b]]. *)
Definition randint (a b : Z) : M Z :=
  call k <- randbelow (Z.to_nat (b - a + 1));
  ret (a + Z.of_nat k).

(** [random.choice(seq)] on the non-empty sequence [x :: xs]. *)
Definition choice {A : Type} (x : A) (xs : list A) : M A :=
  call k <- randbelow (S (length xs));
  ret (nth k (x :: xs) x).

(** [datetime.now().strftime(...)] *)
Definition now : M string :=
  fun w =>
    (inr (clock w (ticks w)),
     mkWorld (draws w) (cursor w) (clock w) (S (ticks w)) (heap w)).

(** Contents of the list stored at address [l]. *)
Definition log_at (w : world) (l : nat) : list LogEntry :=
  default [] (heap w !! l).

(** [lst.append(x)] on the list stored at address [l]. *)
Definition heap_append (l : nat) (x : LogEntry) : M unit :=
  fun w =>
    (inr tt,
     mkWorld (draws w) (cursor w) (clock w) (ticks w)
             (<[ l := log_at w l ++ [x] ]> (heap w))).

(** Allocation of a new empty list. *)
Definition heap_new_list : M nat :=
  fun w =>
    let l := fresh (dom (heap w)) in
    (inr l,
     mkWorld (draws w) (cursor w) (clock w) (ticks w) (<[ l := [] ]> (heap w))).

(** [for i in range(n): acc = body(i, acc)] *)
Fixpoint for_range {A : Type} (n : nat) (i : Z) (body : Z -> A -> M A) (acc : A) : M A :=
  match n with
  | O => ret acc
  | S n' => call acc' <- body i acc; for_range n' (i + 1) body acc'
  end.

(** ** The simulated services *)

Module Resource.
Record t : Type := mk {
  id : string;
  capacity : Z;
  status : string;
  location : string
}.
End Resource.

(** [v == s] for a string literal [s]. *)
Definition py_eq_str (v : pyval) (s : string) : bool :=
  match v with
  | VStr t => String.eqb t s
  | VNum _ => false
  end.

(** [ResourceAPI.get_available_resources] *)
Definition get_available_resources (resource_type : pyval) : list Resource.t :=
  if py_eq_str resource_type "drone" then
    [ Resource.mk "RESOURCE-001" 95 "available" "Base-A";
      Resource.mk "RESOURCE-002" 45 "available" "Base-A";
      Resource.mk "RESOURCE-003" 85 "charging" "Base-B";
      Resource.mk "RESOURCE-004" 100 "available" "Base-A" ]
  else if py_eq_str resource_type "vehicle" then
    [ Resource.mk "VEHICLE-001" 80 "available" "Warehouse-1";
      Resource.mk "VEHICLE-002" 60 "available" "Warehouse-2";
      Resource.mk "VEHICLE-003" 90 "available" "Warehouse-1" ]
  else
    [ Resource.mk "UNIT-001" 75 "available" "Station-A";
      Resource.mk "UNIT-002" 95 "available" "Station-B" ].

Record Conditions : Type := mkConditions {
  cond_type : string;
  safe : bool;
  details : gmap string pyval
}.

(** [EnvironmentAPI.check_conditions]: the dictionary of the three
    readings is built in full, in source order, before the lookup. *)
Definition check_conditions (location task_type : pyval) : M Conditions :=
  call drone_safe <- choice true [true; true; false];
  call condition <- choice "Clear" ["Cloudy"; "Windy"];
  call wind_speed <- randint 5 35;
  call visibility <- randint 5 15;
  call route_safe <- choice true [true; false];
  call traffic_level <- choice "Low" ["Moderate"; "Heavy"];
  call estimated_delay_min <- randint 0 45;
  call road_status <- choice "Clear" ["Construction"];
  call temperature <- randint 20 25;
  let conditions_map : gmap string Conditions :=
    {[ "drone_mission" :=
         mkConditions "weather" drone_safe
           {[ "condition" := VStr condition;
              "wind_speed" := VInt wind_speed;
              "visibility" := VInt visibility ]};
       "delivery_route" :=
         mkConditions "traffic" route_safe
           {[ "traffic_level" := VStr traffic_level;
              "estimated_delay_min" := VInt estimated_delay_min;
              "road_status" := VStr road_status ]};
       "production_job" :=
         mkConditions "facility" true
           {[ "machine_status" := VStr "Operational";
              "temperature" := VInt temperature;
              "power_status" := VStr "Stable" ]} ]} in
  call fallback <- lift (dict_index conditions_map "drone_mission");
  ret (dict_get conditions_map task_type fallback).

(** ** The agent *)

(** [self]: the industry label and the address of the [decision_log] list
    created by the constructor. *)
Record Agent : Type := mkAgent {
  industry : string;
  decision_log : nat
}.

(** [UniversalPlanningAgent.__init__] *)
Definition init (industry : string) : M Agent :=
  call l <- heap_new_list;
  ret (mkAgent industry l).

(** [UniversalPlanningAgent.log_decision] *)
Definition log_decision (self : Agent) (step : string) (decision reasoning : fstring)
  : M unit :=
  call stamp <- now;
  let entry := mkLogEntry stamp step decision reasoning in
  heap_append (decision_log self) entry.

(** [UniversalPlanningAgent.check_environment_safety] *)
Definition check_environment_safety (self : Agent) (location task_type : pyval)
  : M (bool * fstring) :=
  call conditions <- check_conditions location task_type;
  if negb (safe conditions) then
    if String.eqb (cond_type conditions) "weather" then
      call wind <- lift (dict_index (details conditions) "wind_speed");
      ret (false, [Lit "Unsafe weather: Wind "; Fmt wind; Lit " km/h"])
    else if String.eqb (cond_type conditions) "traffic" then
      call delay <- lift (dict_index (details conditions) "estimated_delay_min");
      ret (false, [Lit "Heavy traffic: "; Fmt delay; Lit " min delay"])
    else
      ret (false, [Lit "Conditions not favorable: "; FmtDict (details conditions)])
  else
    ret (true, [Lit "Conditions favorable for task execution"]).

(** [max(xs, key=key)] on a non-empty list: the first element whose key
    is maximal (a later element replaces the current best only when its
    key is strictly greater). *)
Definition py_max_by {A : Type} (key : A -> Z) (x : A) (xs : list A) : A :=
  fold_left (fun best y => if key best <? key y then y else best) xs x.

(** The comprehension
    [[r for r in resources if r["status"] == "available"
                              and r["capacity"] >= min_capacity]] *)
Definition available_resources (resources : list Resource.t) (min_capacity : Z)
  : list Resource.t :=
  List.filter
    (fun r => String.eqb (Resource.status r) "available"
              && (min_capacity <=? Resource.capacity r))
    resources.

(** [UniversalPlanningAgent.select_optimal_resource] *)
Definition select_optimal_resource (self : Agent) (resource_type : pyval)
    (min_capacity : Z) : M (option Resource.t) :=
  let resources := get_available_resources resource_type in
  match available_resources resources min_capacity with
  | [] =>
      exec log_decision self "Resource Selection"
        [Lit "FAILED"]
        [Lit "No "; Fmt resource_type; Lit " available with capacity >= ";
         Fmt (VInt min_capacity); Lit "%"];
      ret None
  | x :: xs =>
      let best_resource := py_max_by Resource.capacity x xs in
      exec log_decision self "Resource Selection"
        [Lit "Selected "; Fmt (VStr (Resource.id best_resource))]
        [Lit "Capacity: "; Fmt (VInt (Resource.capacity best_resource));
         Lit "%, Status: "; Fmt (VStr (Resource.status best_resource))];
      ret (Some best_resource)
  end.

Record PlanStep : Type := mkPlanStep {
  step_number : Z;
  action : fstring;
  estimated_time_min : Z
}.

Record Plan : Type := mkPlan {
  start : pyval;
  finish : pyval;
  total_steps : Z;
  estimated_duration_min : Z;
  steps : list PlanStep;
  contingency_plan : string
}.

(** [sum(step["estimated_time_min"] for step in steps)] *)
Definition sum_times (l : list PlanStep) : Z :=
  fold_left (fun acc s => acc + estimated_time_min s) l 0.

(** The body of the loop of [plan_execution_path]: one step is appended,
    with a drawn duration. *)
Definition plan_body (i : Z) (steps : list PlanStep) : M (list PlanStep) :=
  call minutes <- randint 5 20;
  ret (steps ++ [mkPlanStep (i + 1) [Lit "Execute phase "; Fmt (VInt (i + 1))] minutes]).

(** [UniversalPlanningAgent.plan_execution_path] *)
Definition plan_execution_path (self : Agent) (task_details : gmap string pyval)
  : M Plan :=
  let start := default (VStr "Base") (task_details !! "start_location") in
  let finish := default (VStr "Target") (task_details !! "end_location") in
  call num_steps <- randint 3 7;
  call steps <- for_range (Z.to_nat num_steps) 0 plan_body [];
  let total_time := sum_times steps in
  ret (mkPlan start finish num_steps total_time steps
         "Return to base if issues arise").

(** The dictionary returned by [make_autonomous_decision]: its shape
    depends on [task_approved]. The [decision_log] entry is the agent's
    own list (an address), not a copy. The constant [safety_checks] entry
    of an approval carries no information and is left out. *)
Inductive Decision : Type :=
  | Rejected (reason : fstring) (log : nat)
  | Approved (resource_assigned : string)
             (resource_capacity : fstring)
             (execution_plan : Plan)
             (conditions_status : fstring)
             (estimated_completion : fstring)
             (log : nat).

Definition task_approved (d : Decision) : bool :=
  match d with
  | Rejected _ _ => false
  | Approved _ _ _ _ _ _ => true
  end.

Definition returned_log (d : Decision) : nat :=
  match d with
  | Rejected _ l => l
  | Approved _ _ _ _ _ l => l
  end.

(** [UniversalPlanningAgent.make_autonomous_decision] *)
Definition make_autonomous_decision (self : Agent) (task_request : gmap string pyval)
  : M Decision :=
  let task_type := default (VStr "drone_mission") (task_request !! "task_type") in
  let resource_type := default (VStr "drone") (task_request !! "resource_type") in
  call verdict <-
    check_environment_safety self
      (default (VStr "Unknown") (task_request !! "location")) task_type;
  let safe := fst verdict in
  let reason := snd verdict in
  if negb safe then
    exec log_decision self "Environment Analysis" [Lit "TASK REJECTED"] reason;
    ret (Rejected reason (decision_log self))
  else
    exec log_decision self "Environment Analysis" [Lit "CONDITIONS APPROVED"] reason;
    let distance := default (VInt 0) (task_request !! "distance") in
    let complexity := default (VStr "medium") (task_request !! "complexity") in
    let duration := default (VInt 0) (task_request !! "duration") in
    call required_capacity <-
      lift (calculate_resource_requirement distance complexity duration);
    exec log_decision self "Requirement Analysis"
      [Lit "Required Capacity: "; Fmt (VInt required_capacity); Lit "%"]
      [Lit "Distance: "; Fmt distance; Lit ", Complexity: "; Fmt complexity];
    call selected_resource <- select_optimal_resource self resource_type required_capacity;
    match selected_resource with
    | None =>
        ret (Rejected
               [Lit "No "; Fmt resource_type;
                Lit " available with required capacity (";
                Fmt (VInt required_capacity); Lit "%)"]
               (decision_log self))
    | Some chosen =>
        call execution_plan <- plan_execution_path self task_request;
        exec log_decision self "Final Decision" [Lit "TASK APPROVED"]
          [Lit "All checks passed. "; Fmt (VStr (Resource.id chosen));
           Lit " ready for deployment."];
        ret (Approved (Resource.id chosen)
               [Fmt (VInt (Resource.capacity chosen)); Lit "% (required: ";
                Fmt (VInt required_capacity); Lit "%)"]
               execution_plan
               reason
               [Fmt (VInt (estimated_duration_min execution_plan)); Lit " minutes"]
               (decision_log self))
    end.

(** ** The console entry point *)

(** The first use case of [demo_multiple_industries]. *)
Definition drone_task : gmap string pyval :=
  {[ "task_type" := VStr "drone_mission"; "resource_type" := VStr "drone";
     "location" := VStr "Solar Farm Alpha"; "distance" := VInt 25;
     "complexity" := VStr "medium"; "start_location" := VStr "Base-A";
     "end_location" := VStr "Solar Farm Alpha" ]}.

(** One use case of [demo_multiple_industries]: a new agent is built and
    asked for one decision. *)
Definition run_use_case (industry : string) (task_request : gmap string pyval)
  : M Decision :=
  call agent <- init industry;
  make_autonomous_decision agent task_request.

(** The second and the third use case of [demo_multiple_industries]. *)
Definition delivery_task : gmap string pyval :=
  {[ "task_type" := VStr "delivery_route"; "resource_type" := VStr "vehicle";
     "location" := VStr "Downtown District"; "distance" := VInt 15;
     "complexity" := VStr "high"; "start_location" := VStr "Warehouse-1";
     "end_location" := VStr "Customer Location" ]}.

Definition production_task : gmap string pyval :=
  {[ "task_type" := VStr "production_job"; "resource_type" := VStr "machine";
     "location" := VStr "Factory Floor A"; "duration" := VInt 45;
     "complexity" := VStr "low"; "start_location" := VStr "Station-A";
     "end_location" := VStr "Station-B" ]}.

(** [demo_multiple_industries]: the three use cases in sequence, each on
    an agent of its own.  The three results, which the source keeps in
    local variables, are returned. *)
Definition demo_multiple_industries : M (Decision * Decision * Decision) :=
  call result1 <- run_use_case "drone_operations" drone_task;
  call result2 <- run_use_case "logistics" delivery_task;
  call result3 <- run_use_case "manufacturing" production_task;
  ret (result1, result2, result3).

(** * Definitions used by the statements and the proofs *)

(** ** Requirement calculation, as the specification words it *)

(** The multiplier table: 1.0 for "low", 1.3 for "medium", 1.6 for "high"
    and 1.3 for any other tier. *)
Definition tier_multiplier (tier : pyval) : spec_float :=
  if py_eq_str tier "low" then f1_0
  else if py_eq_str tier "medium" then f1_3
  else if py_eq_str tier "high" then f1_6
  else f1_3.





(** The order of the complexity tiers: [low <= medium <= high]; any
    value, tier or not, is related to itself. *)
Inductive tier_le : pyval -> pyval -> Prop :=
  | tier_le_refl (t : pyval) : tier_le t t
  | tier_le_low_medium : tier_le (VStr "low") (VStr "medium")
  | tier_le_medium_high : tier_le (VStr "medium") (VStr "high")
  | tier_le_low_high : tier_le (VStr "low") (VStr "high").

(** The options of the complexity selector of the browser variant, with
    the tier of the console variant that each one stands for. *)
Inductive ui_option : string -> string -> Prop :=
  | ui_low : ui_option "Low - Simple task" "low"
  | ui_medium : ui_option "Medium - Standard operation" "medium"
  | ui_high : ui_option "High - Complex mission" "high".

(** ** Values of binary64 numbers *)

(** The value that stands for [+infinity]: [2^1024] in units of
    [2^-1074]; every finite number is strictly below it. *)
Definition top : Z := 2 ^ 2098.

(** Exact value of a binary64 number in units of [2^-1074], the least
    positive number: every finite number is an integer multiple of it.
    A NaN, which is unordered, is given 0. *)
Definition fval (f : spec_float) : Z :=
  match f with
  | S754_zero _ => 0
  | S754_nan => 0
  | S754_infinity s => cond_Zopp s top
  | S754_finite s m e => cond_Zopp s (Z.pos m * 2 ^ (e + 1074))
  end.

(** Exact value of a Python number in units of [2^-1074]. *)
Definition units (x : pynum) : Z :=
  match x with
  | PyInt z => z * 2 ^ 1074
  | PyFloat f => fval f
  end.

(** A [float] held by the interpreter is a valid binary64 number. *)
Definition valid_num (x : pynum) : Prop :=
  match x with
  | PyInt _ => True
  | PyFloat f => valid f = true
  end.

(** Zeros, positive finite numbers and [+infinity]. *)
Definition nonneg_float (f : spec_float) : Prop :=
  match f with
  | S754_zero _ => True
  | S754_infinity s => s = false
  | S754_nan => False
  | S754_finite s m e => s = false /\ valid f = true
  end.

(** Positive finite numbers. *)
Definition pos_finite (f : spec_float) : Prop :=
  match f with
  | S754_finite false _ _ => valid f = true
  | _ => False
  end.

(** The operand of a product as a [float]. *)
Definition to_float (x : pynum) : exn + spec_float :=
  match x with
  | PyInt z => float_of_int z
  | PyFloat f => inr f
  end.

(** The computation on a positive measure [g] (a distance with rate
    [1.5], or a duration with rate [0.8]), as a chain of products. *)
Definition scaled_total (rate g multiplier : spec_float) : spec_float :=
  fmul (fmul (fmul g rate) multiplier) f1_2.


(** ** Rounding to nearest, ties to even *)

(** [N / D] rounded to the nearest integer, ties to even. *)
Definition rne_div (N D : Z) : Z :=
  let q := N / D in
  match 2 * (N mod D) ?= D with
  | Lt => q
  | Eq => if Z.even q then q else q + 1
  | Gt => q + 1
  end.

(** The exponent of the binary64 format for a number of magnitude [x]. *)
Definition fexp64 (x : Z) : Z := Z.max (x - 53) (-1074).

(** What [binary_round_aux] returns for a rounded mantissa [m1] at
    exponent [E]: a carry into bit 53 moves to the next exponent, and an
    exponent above 971 overflows. *)
Definition round_result (m1 E : Z) : spec_float :=
  if m1 =? 0 then S754_zero false
  else if m1 <? 2 ^ 53 then
    (if E <=? 971 then S754_finite false (Z.to_pos m1) E else S754_infinity false)
  else
    (if E + 1 <=? 971 then S754_finite false (Z.to_pos (2 ^ 52)) (E + 1)
     else S754_infinity false).

(** Rounding of the value [V], given in units of [2^-(1074+t)], to the
    binary64 format; the result is in units of [2^-1074]. *)
Definition Rnd (t V : Z) : Z :=
  let k := Z.max (Z.log2 V + 1 - 53) t in
  rne_div V (2 ^ k) * 2 ^ (k - t).

(** ** Worlds and traces *)

(** The world after [n] more outcomes of the random source are consumed. *)
Definition advance (n : nat) (w : world) : world :=
  mkWorld (draws w) (n + cursor w) (clock w) (ticks w) (heap w).

(** The [k]-th next outcome, reduced to [[0, n)]. *)
Definition outcome (w : world) (k : nat) (n : nat) : nat :=
  (draws w (k + cursor w) mod n)%nat.

(** The world after one entry is appended to the list at [l]. *)
Definition logged (w : world) (l : nat) (e : LogEntry) : world :=
  mkWorld (draws w) (cursor w) (clock w) (S (ticks w))
          (<[ l := log_at w l ++ [e] ]> (heap w)).

(** The three readings that [check_conditions] builds in world [w], from
    the nine outcomes it draws. *)
Definition drone_reading (w : world) : Conditions :=
  mkConditions "weather"
    (nth (outcome w 0 4) [true; true; true; false] true)
    {[ "condition" := VStr (nth (outcome w 1 3) ["Clear"; "Cloudy"; "Windy"] "Clear");
       "wind_speed" := VInt (5 + Z.of_nat (outcome w 2 31));
       "visibility" := VInt (5 + Z.of_nat (outcome w 3 11)) ]}.

Definition route_reading (w : world) : Conditions :=
  mkConditions "traffic"
    (nth (outcome w 4 3) [true; true; false] true)
    {[ "traffic_level" := VStr (nth (outcome w 5 3) ["Low"; "Moderate"; "Heavy"] "Low");
       "estimated_delay_min" := VInt (0 + Z.of_nat (outcome w 6 46));
       "road_status" := VStr (nth (outcome w 7 2) ["Clear"; "Construction"] "Clear") ]}.

Definition facility_reading (w : world) : Conditions :=
  mkConditions "facility" true
    {[ "machine_status" := VStr "Operational";
       "temperature" := VInt (20 + Z.of_nat (outcome w 8 6));
       "power_status" := VStr "Stable" ]}.

(** The reading that a task type selects. *)
Definition reading_of (task_type : pyval) (w : world) : Conditions :=
  if py_eq_str task_type "delivery_route" then route_reading w
  else if py_eq_str task_type "production_job" then facility_reading w
  else drone_reading w.

(** The reason that accompanies every approval of the conditions. *)
Definition favorable : fstring := [Lit "Conditions favorable for task execution"].

(** The task type that a request carries. *)
Definition task_type_of (task_request : gmap string pyval) : pyval :=
  default (VStr "drone_mission") (task_request !! "task_type").

(** The entry that the environment stage records. *)
Definition environment_entry (w : world) (approved : bool) (reason : fstring)
  : LogEntry :=
  mkLogEntry (clock w (ticks w)) "Environment Analysis"
    [Lit (if approved then "CONDITIONS APPROVED" else "TASK REJECTED")] reason.

(** The selected resource, as a function of the table. *)
Definition selection (resource_type : pyval) (min_capacity : Z) : option Resource.t :=
  match available_resources (get_available_resources resource_type) min_capacity with
  | [] => None
  | x :: xs => Some (py_max_by Resource.capacity x xs)
  end.

(** ** Concrete inputs *)

Definition resource_004 : Resource.t :=
  Resource.mk "RESOURCE-004" 100 "available" "Base-A".

(** An agent whose decision log is the list at address 0. *)
Definition agent0 : Agent := mkAgent "drone_operations" 0.

(** A world with an empty heap whose random source always yields 0. *)
Definition world0 : world := mkWorld (fun _ => 0%nat) 0 (fun _ => "") 0 ∅.

(** A world whose random source always yields outcome 3 (the weather
    reading is then unsafe) and whose clock counts its readings. *)
Definition unsafe_world : world :=
  mkWorld (fun _ => 3%nat) 0
          (fun n => String (Ascii.ascii_of_nat (48 + n)) EmptyString) 0 ∅.

(** The reason of the rejection in [unsafe_world]: the wind is 5 + 3. *)
Definition unsafe_reason : fstring :=
  [Lit "Unsafe weather: Wind "; Fmt (VInt 8); Lit " km/h"].

(** The total load that the browser variant computes for the default
    form (distance 25, medium complexity): 48.75. *)
Definition ui_load_25_medium : spec_float := Eval vm_compute in literal 4875 100.

(** * The simulation of the browser variant ([app.py]) *)

(** [x <= y] on [float]s (false when either is a NaN). *)
Definition fleb : spec_float -> spec_float -> bool := SFleb.

(** The literal [0.3]. *)
Definition f0_3 : spec_float := Eval vm_compute in literal 3 10.

(** [sub in s] for two strings: [sub] occurs in [s] as a substring. *)
Fixpoint contains (sub s : string) : bool :=
  String.prefix sub s
  || match s with
     | EmptyString => false
     | String _ s' => contains sub s'
     end.

(** [random.random()]: the number [k / 2^53] for an integer [k] of
    [[0, 2^53)] taken from the next outcome of the random source. *)
Definition random_float : M spec_float :=
  fun w =>
    let k := Z.of_nat (draws w (cursor w)) mod 2 ^ 53 in
    (inr (binary_normalize prec emax k (-53) false),
     mkWorld (draws w) (S (cursor w)) (clock w) (ticks w) (heap w)).

(** [round(f)] for a [float]: the nearest integer, ties to even;
    [OverflowError] on an infinity and [ValueError] on a NaN. *)
Definition py_round (f : spec_float) : exn + Z :=
  match f with
  | S754_zero _ => inr 0
  | S754_infinity _ => inl OverflowError
  | S754_nan => inl ValueError
  | S754_finite s m e =>
      inr (cond_Zopp s
             (if 0 <=? e then Z.pos m * 2 ^ e else rne_div (Z.pos m) (2 ^ (- e))))
  end.

(** [a / b] for an [int] [a] and a positive [int] [b]: the binary64
    number nearest to the exact quotient, [OverflowError] when it is
    out of range.  The integers themselves are divided, whatever their
    size, so that the quotient is rounded once. *)
Definition int_truediv (a : Z) (b : positive) : exn + spec_float :=
  match a with
  | Z0 => inr (S754_zero false)
  | Zpos p =>
      match fdiv (S754_finite false p 0) (S754_finite false b 0) with
      | S754_infinity _ => inl OverflowError
      | q => inr q
      end
  | Zneg p =>
      match fdiv (S754_finite true p 0) (S754_finite false b 0) with
      | S754_infinity _ => inl OverflowError
      | q => inr q
      end
  end.

(** An entry of the decision log of the page: step, decision, reasoning
    and the style class of its status. *)
Record UiEntry : Type := mkUiEntry {
  ui_step : string;
  ui_decision : fstring;
  ui_reasoning : fstring;
  status_cls : string
}.

(** [log_entry]: the entry that one call adds to the page.  A call
    without a status passes the default ["info"]. *)
Definition log_entry (step : string) (decision reasoning : fstring) (status : string)
  : UiEntry :=
  let classes : gmap string string :=
    {[ "success" := "success"; "error" := "error"; "warning" := "warning" ]} in
  mkUiEntry step decision reasoning (default "" (classes !! status)).

(** The result panel: its style class and the pieces of its text; the
    markup around them is left out. *)
Record Panel : Type := mkPanel {
  panel_cls : string;
  panel_text : fstring
}.

(** How a run of the script ends: at its last line, at [st.stop()], or
    with an exception. *)
Inductive Ending : Type :=
  | Completed
  | Stopped
  | Raised (e : exn).

(** What a run leaves: the entries on the page in order, the content of
    the result box, how the run ended and the state of the random
    source. *)
Record Run : Type := mkRun {
  page : list UiEntry;
  result_box : option Panel;
  ending : Ending;
  rng : world
}.

(** [weather_ok = "Favorable" in weather
                  or ("Moderate" in weather and random.random() > 0.3)];
    the random source is read only when the first test fails and the
    label contains ["Moderate"]. *)
Definition weather_ok (weather : string) : M bool :=
  if contains "Favorable" weather then ret true
  else if contains "Moderate" weather then
    call r <- random_float;
    ret (fltb f0_3 r)
  else ret false.

(** [eta = round((distance / 45) * 60)] *)
Definition ui_eta (distance : Z) : exn + Z :=
  do speed <- int_truediv distance 45;
  py_round (fmul speed (of_Z 60)).

(** The simulation that a press of the button runs, on the values of the
    form.  The pauses between the steps are not observed and are left
    out. *)
Definition simulate (location : string) (distance : Z) (complexity weather : string)
    (w : world) : Run :=
  let checking :=
    log_entry "STEP 1: Environment Analysis" [Lit "🌍 Checking Conditions..."]
      [Lit "Analyzing safety for "; Fmt (VStr location)] "info" in
  match weather_ok weather w with
  | (inl e, w1) => mkRun [checking] None (Raised e) w1
  | (inr false, w1) =>
      let unsafe :=
        log_entry "STEP 1: Environment Analysis" [Lit "❌ CONDITIONS UNSAFE"]
          [Lit "Detected severe conditions"] "error" in
      mkRun [checking; unsafe]
        (Some (mkPanel "result-panel error"
                 [Lit "❌ TASK REJECTED — Unsafe environmental conditions"]))
        Stopped w1
  | (inr true, w1) =>
      let approved :=
        log_entry "STEP 1: Environment Analysis" [Lit "✅ CONDITIONS APPROVED"]
          [Lit "Environment is safe for operation"] "success" in
      let estimating :=
        log_entry "STEP 2: Resource Calculation" [Lit "📊 Estimating Resource Load..."]
          [Lit "Distance: "; Fmt (VInt distance); Lit "km, Complexity: ";
           Fmt (VStr complexity)] "info" in
      let shown := [checking; approved; estimating] in
      match (do total <- ui_total distance complexity;
             do percent <- py_round total;
             inr (total, percent)) with
      | inl e => mkRun shown None (Raised e) w1
      | inr (total, percent) =>
          let load :=
            log_entry "STEP 2: Resource Calculation"
              [Lit "✅ "; Fmt (VInt percent); Lit "% total load"]
              [Lit "Added safety margin 20%"] "success" in
          let resource_ok := fleb total (of_Z 95) in
          if resource_ok then
            let found :=
              log_entry "STEP 3: Resource Selection" [Lit "✅ RESOURCE FOUND"]
                [Lit "Assigned RESOURCE-001, 95% capacity"] "success" in
            match ui_eta distance with
            | inl e => mkRun (shown ++ [load; found]) None (Raised e) w1
            | inr eta =>
                let route :=
                  log_entry "STEP 4: Path Planning" [Lit "✅ OPTIMAL ROUTE READY"]
                    [Lit "ETA: "; Fmt (VInt eta); Lit " minutes, 5 checkpoints"]
                    "success" in
                let final :=
                  log_entry "STEP 5: Final Decision" [Lit "🎯 APPROVED"]
                    [Lit "All systems ready for deployment"] "success" in
                mkRun (shown ++ [load; found; route; final])
                  (Some (mkPanel "result-panel"
                           [Lit "✅ TASK APPROVED"; Lit "Resource Assigned: ";
                            Lit "RESOURCE-001"; Lit "Capacity Use: ";
                            Lit "95% (required "; Fmt (VInt percent); Lit "%)";
                            Lit "ETA: "; Fmt (VInt eta); Lit " minutes";
                            Lit "Location: "; Fmt (VStr location)]))
                  Completed w1
            end
          else
            let insufficient :=
              log_entry "STEP 3: Resource Selection" [Lit "❌ INSUFFICIENT RESOURCES"]
                [Lit "Capacity exceeds threshold"] "error" in
            mkRun (shown ++ [load; insufficient])
              (Some (mkPanel "result-panel error"
                       [Lit "❌ TASK REJECTED — Insufficient resources"]))
              Stopped w1
      end
  end.

(** * Further definitions used by the statements and the proofs *)

(** ** Stages of one evaluation *)

(** The resource type that a request carries. *)
Definition resource_type_of (task_request : gmap string pyval) : pyval :=
  default (VStr "drone") (task_request !! "resource_type").

(** The requirement that the evaluation computes for a request. *)
Definition requirement_of (task_request : gmap string pyval) : exn + Z :=
  calculate_resource_requirement
    (default (VInt 0) (task_request !! "distance"))
    (default (VStr "medium") (task_request !! "complexity"))
    (default (VInt 0) (task_request !! "duration")).

(** The reason that the safety check gives for a task type in world [w]. *)
Definition reason_of (task_type : pyval) (w : world) : fstring :=
  if safe (reading_of task_type w) then favorable
  else if py_eq_str task_type "delivery_route" then
    [Lit "Heavy traffic: "; Fmt (VInt (0 + Z.of_nat (outcome w 6 46)));
     Lit " min delay"]
  else
    [Lit "Unsafe weather: Wind "; Fmt (VInt (5 + Z.of_nat (outcome w 2 31)));
     Lit " km/h"].

(** The entry of the requirement stage, recorded in world [w]. *)
Definition requirement_entry (w : world) (task_request : gmap string pyval)
    (required_capacity : Z) : LogEntry :=
  mkLogEntry (clock w (ticks w)) "Requirement Analysis"
    [Lit "Required Capacity: "; Fmt (VInt required_capacity); Lit "%"]
    [Lit "Distance: "; Fmt (default (VInt 0) (task_request !! "distance"));
     Lit ", Complexity: "; Fmt (default (VStr "medium") (task_request !! "complexity"))].

(** The step of [py_max_by]: the current best is replaced only by an
    element of strictly greater key. *)
Definition pick {A : Type} (key : A -> Z) (best y : A) : A :=
  if key best <? key y then y else best.

(** The highest capacity among the available entries of the table of a
    resource type, and the entry that has it. *)
Definition table_capacity (resource_type : pyval) : Z :=
  if py_eq_str resource_type "drone" then 100
  else if py_eq_str resource_type "vehicle" then 90
  else 95.

Definition top_resource (resource_type : pyval) : Resource.t :=
  if py_eq_str resource_type "drone" then resource_004
  else if py_eq_str resource_type "vehicle" then
    Resource.mk "VEHICLE-003" 90 "available" "Warehouse-1"
  else Resource.mk "UNIT-002" 95 "available" "Station-B".

(** The largest positive integer distance whose requirement a capacity
    covers, by capacity and tier. *)
Definition distance_limits : list (Z * string * Z) :=
  [(100, "low", 56); (100, "medium", 43); (100, "high", 35);
   (90, "low", 50); (90, "medium", 38); (90, "high", 31);
   (95, "low", 53); (95, "medium", 41); (95, "high", 33)].

(** The world after the constructor has allocated the list of a new
    agent. *)
Definition allocated (w : world) : world :=
  mkWorld (draws w) (cursor w) (clock w) (ticks w)
          (<[ fresh (dom (heap w)) := [] ]> (heap w)).

(** The resource that a decision assigns, if any. *)
Definition resource_assigned_of (d : Decision) : option string :=
  match d with
  | Rejected _ _ => None
  | Approved resource_assigned _ _ _ _ _ => Some resource_assigned
  end.

(** ** The browser variant *)

(** The least outcome of the random source, as an integer of
    [[0, 2^53)], for which [random.random() > 0.3] holds. *)
Definition moderate_threshold : Z := 2702159776422298.

(** The options of the complexity selector with the largest distance for
    which the browser variant finds the resource sufficient. *)
Definition ui_limits : list (string * Z) :=
  [("Low - Simple task", 63); ("Medium - Standard operation", 48);
   ("High - Complex mission", 39)].

(** The steps and the status classes of the entries of a page. *)
Definition page_steps (r : Run) : list string := map ui_step (page r).
Definition page_classes (r : Run) : list string := map status_cls (page r).

(** The panel of an approval. *)
Definition approved_panel (percent eta : Z) (location : string) : Panel :=
  mkPanel "result-panel"
    [Lit "✅ TASK APPROVED"; Lit "Resource Assigned: "; Lit "RESOURCE-001";
     Lit "Capacity Use: "; Lit "95% (required "; Fmt (VInt percent); Lit "%)";
     Lit "ETA: "; Fmt (VInt eta); Lit " minutes"; Lit "Location: ";
     Fmt (VStr location)].

(** The options of the complexity selector with the tier of the console
    variant, the largest distance that the console variant serves from
    the drone table and the largest one that the browser variant
    accepts. *)
Definition variant_limits : list (string * string * Z * Z) :=
  [("Low - Simple task", "low", 56, 63);
   ("Medium - Standard operation", "medium", 43, 48);
   ("High - Complex mission", "high", 35, 39)].

(** * Properties *)

(** ** The literals

    The constants are the binary64 numbers that the interpreter reads
    from the decimal literals: for instance [1.3] is
    [0x1.4cccccccccccdp+0]. *)

Example f1_0_bits : f1_0 = S754_finite false 0x10000000000000 (-52).
Proof. reflexivity. Qed.

Example f1_2_bits : f1_2 = S754_finite false 0x13333333333333 (-52).
Proof. reflexivity. Qed.

Example f1_3_bits : f1_3 = S754_finite false 0x14cccccccccccd (-52).
Proof. reflexivity. Qed.

Example f1_5_bits : f1_5 = S754_finite false 0x18000000000000 (-52).
Proof. reflexivity. Qed.

Example f1_6_bits : f1_6 = S754_finite false 0x1999999999999a (-52).
Proof. reflexivity. Qed.

Example f0_8_bits : f0_8 = S754_finite false 0x1999999999999a (-53).
Proof. reflexivity. Qed.

(** ** Binary64 rounding

    The Standard Library specifies the operations on digits.  The lemmas
    of this part relate [binary_round_aux] to the rounding [Rnd] of exact
    values, from which the monotonicity of the multiplication follows. *)

Lemma iter_pos_nat {A : Type} (f : A -> A) (p : positive) (x : A) :
  SpecFloat.iter_pos f p x = Nat.iter (Pos.to_nat p) f x.
Proof.
  revert x. induction p as [p IH | p IH | ]; intros x; cbn [SpecFloat.iter_pos].
  - rewrite !IH, Pos2Nat.inj_xI.
    rewrite <- Nat.iter_succ_r, <- Nat.iter_add. f_equal. lia.
  - rewrite !IH, Pos2Nat.inj_xO, <- Nat.iter_add. f_equal. lia.
  - reflexivity.
Qed.

(** One shift to the right: the bit that leaves becomes the round bit and
    the former round bit joins the sticky bit. *)
Lemma shr_1_nonneg (m : Z) (r s : bool) :
  0 <= m ->
  shr_1 (Build_shr_record m r s) = Build_shr_record (m / 2) (Z.odd m) (r || s).
Proof.
  intros Hm. destruct m as [ | [p | p | ] | p]; try lia; simpl.
  - reflexivity.
  - f_equal. rewrite Pos2Z.inj_xI. apply (Z.div_unique _ 2 _ 1); lia.
  - f_equal. rewrite Pos2Z.inj_xO. apply (Z.div_unique _ 2 _ 0); lia.
  - reflexivity.
Qed.

(** [n + 1] shifts of an exact mantissa: quotient, round bit, sticky bit. *)
Lemma iter_shr_1 (M : Z) (n : nat) :
  0 <= M ->
  Nat.iter (S n) shr_1 (Build_shr_record M false false)
  = Build_shr_record (M / 2 ^ (Z.of_nat n + 1))
      (Z.testbit M (Z.of_nat n))
      (negb (M mod 2 ^ Z.of_nat n =? 0)).
Proof.
  intros HM. induction n as [ | n IH].
  - unfold Nat.iter; cbn [nat_rect]. rewrite shr_1_nonneg by assumption.
    change (2 ^ (Z.of_nat 0 + 1)) with 2. change (2 ^ Z.of_nat 0) with 1.
    rewrite Z.mod_1_r, Z.bit0_odd. reflexivity.
  - rewrite Nat.iter_succ, IH.
    assert (Hp : 0 < 2 ^ (Z.of_nat n + 1)) by (apply Z.pow_pos_nonneg; lia).
    rewrite shr_1_nonneg by (apply Z.div_pos; lia).
    replace (Z.of_nat (S n)) with (Z.of_nat n + 1) by lia.
    f_equal.
    + rewrite Z.div_div by lia. f_equal.
      rewrite (Z.pow_add_r 2 (Z.of_nat n + 1) 1) by lia. reflexivity.
    + rewrite <- Z.bit0_odd, Z.div_pow2_bits by lia. f_equal. 
    + rewrite (Z.pow_add_r 2 (Z.of_nat n) 1) by lia.
      rewrite Z.rem_mul_r by lia. change (2 ^ 1) with 2.
      rewrite <- (Z.testbit_spec' M (Z.of_nat n)) by lia.
      assert (Hq : 0 < 2 ^ Z.of_nat n) by (apply Z.pow_pos_nonneg; lia).
      pose proof (Z.mod_pos_bound M (2 ^ Z.of_nat n) Hq) as Hb.
      destruct (Z.testbit M (Z.of_nat n)); simpl Z.b2z; simpl orb.
      * symmetry. apply negb_true_iff, Z.eqb_neq. lia.
      * f_equal. rewrite Z.mul_0_r, Z.add_0_r. reflexivity.
Qed.

Lemma shr_exact_pos (M e n : Z) :
  0 <= M -> 0 < n ->
  shr (Build_shr_record M false false) e n
  = (Build_shr_record (M / 2 ^ n) (Z.testbit M (n - 1))
       (negb (M mod 2 ^ (n - 1) =? 0)), e + n).
Proof.
  intros HM Hn. destruct n as [ | p | p]; try lia.
  unfold shr. rewrite iter_pos_nat.
  destruct (Pos2Nat.is_succ p) as [k Hk]. rewrite Hk.
  rewrite iter_shr_1 by assumption.
  replace (Z.of_nat k) with (Z.pos p - 1) by lia.
  replace (Z.pos p - 1 + 1) with (Z.pos p) by lia. reflexivity.
Qed.

(** Rounding on the round and sticky bits is [rne_div]. *)
Lemma round_shr_rne (M n : Z) :
  0 <= M -> 0 < n ->
  round_nearest_even (M / 2 ^ n)
    (loc_of_shr_record
       (Build_shr_record (M / 2 ^ n) (Z.testbit M (n - 1))
          (negb (M mod 2 ^ (n - 1) =? 0))))
  = rne_div M (2 ^ n).
Proof.
  intros HM Hn. unfold rne_div.
  assert (Hq : 0 < 2 ^ (n - 1)) by (apply Z.pow_pos_nonneg; lia).
  assert (Hsplit : 2 ^ n = 2 ^ (n - 1) * 2).
  { replace (2 ^ n) with (2 ^ ((n - 1) + 1)) by (f_equal; lia).
    rewrite Z.pow_add_r by lia. reflexivity. }
  assert (Hmod : M mod 2 ^ n
                 = M mod 2 ^ (n - 1) + 2 ^ (n - 1) * Z.b2z (Z.testbit M (n - 1))).
  { rewrite Hsplit, Z.rem_mul_r by lia.
    rewrite <- (Z.testbit_spec' M (n - 1)) by lia. reflexivity. }
  pose proof (Z.mod_pos_bound M (2 ^ (n - 1)) Hq) as Hb.
  rewrite Hmod. rewrite Hsplit at 2 3.
  destruct (Z.testbit M (n - 1)); simpl Z.b2z.
  - destruct (Z.eqb_spec (M mod 2 ^ (n - 1)) 0) as [E0 | N0]; simpl.
    + rewrite E0.
      replace (2 * (0 + 2 ^ (n - 1) * 1) ?= 2 ^ (n - 1) * 2) with Eq
        by (symmetry; apply Z.compare_eq_iff; lia).
      reflexivity.
    + replace (2 * (M mod 2 ^ (n - 1) + 2 ^ (n - 1) * 1) ?= 2 ^ (n - 1) * 2) with Gt
        by (symmetry; apply Z.compare_gt_iff; lia).
      reflexivity.
  - replace (2 * (M mod 2 ^ (n - 1) + 2 ^ (n - 1) * 0) ?= 2 ^ (n - 1) * 2) with Lt
      by (symmetry; apply Z.compare_lt_iff; lia).
    destruct (negb (M mod 2 ^ (n - 1) =? 0)); reflexivity.
Qed.

Lemma digits2_pos_size (p : positive) : digits2_pos p = Pos.size p.
Proof. induction p as [p IH | p IH | ]; simpl; congruence. Qed.

Lemma Zdigits2_log2 (M : Z) : 0 < M -> Zdigits2 M = Z.log2 M + 1.
Proof.
  destruct M as [ | p | p]; try lia. intros _. simpl Zdigits2.
  rewrite digits2_pos_size. destruct p; simpl; lia.
Qed.

Lemma digits_bounds (M : Z) :
  0 < M -> 2 ^ Z.log2 M <= M < 2 ^ (Z.log2 M + 1).
Proof. intros HM. apply Z.log2_spec. assumption. Qed.

Lemma fexp_fexp64 (x : Z) : fexp prec emax x = fexp64 x.
Proof. reflexivity. Qed.

Lemma rne_div_bounds (N D : Z) : N / D <= rne_div N D <= N / D + 1.
Proof.
  unfold rne_div. destruct (2 * (N mod D) ?= D); try lia.
  destruct (Z.even (N / D)); lia.
Qed.

Lemma rne_div_1 (N : Z) : rne_div N 1 = N.
Proof. unfold rne_div. rewrite Z.mod_1_r, Z.div_1_r. reflexivity. Qed.

Lemma shr_nonpos (mrs : shr_record) (e n : Z) : n <= 0 -> shr mrs e n = (mrs, e).
Proof. intros Hn. destruct n; try reflexivity. lia. Qed.

(** [binary_round_aux] on an exact positive input whose exponent is not
    above the target exponent: the mantissa is rounded to nearest even at
    the target exponent, then renormalised. *)
Lemma binary_round_aux_char (M e : Z) :
  0 < M ->
  e <= fexp64 (Z.log2 M + 1 + e) ->
  let E := fexp64 (Z.log2 M + 1 + e) in
  let m1 := rne_div M (2 ^ (E - e)) in
  binary_round_aux prec emax false M e loc_Exact = round_result m1 E
  /\ m1 <= 2 ^ 53.
Proof.
  intros HM Hpre E m1.
  assert (HE : -1074 <= E) by (unfold E, fexp64; lia).
  assert (HdE : Z.log2 M + 1 + e - 53 <= E) by (unfold E, fexp64; lia).
  pose proof (digits_bounds M HM) as [Hlo Hhi].
  assert (Hn0 : 0 <= E - e) by (fold E in Hpre; lia).
  assert (Hpow : 0 < 2 ^ (E - e)) by (apply Z.pow_pos_nonneg; lia).
  assert (Hq : M / 2 ^ (E - e) < 2 ^ 53).
  { apply Z.div_lt_upper_bound; [lia | ].
    rewrite <- Z.pow_add_r by lia.
    eapply Z.lt_le_trans; [exact Hhi | ].
    apply Z.pow_le_mono_r; lia. }
  pose proof (rne_div_bounds M (2 ^ (E - e))) as Hb. fold m1 in Hb.
  assert (Hq0 : 0 <= M / 2 ^ (E - e)) by (apply Z.div_pos; lia).
  split; [ | lia].
  (* first shift and rounding *)
  assert (Hfirst :
    binary_round_aux prec emax false M e loc_Exact
    = let '(mrs, e2) := shr_fexp prec emax m1 E loc_Exact in
      match shr_m mrs with
      | 0 => S754_zero false
      | Z.pos m => if e2 <=? emax - prec then S754_finite false m e2
                   else S754_infinity false
      | Z.neg _ => S754_nan
      end).
  { unfold binary_round_aux. unfold shr_fexp at 1.
    rewrite fexp_fexp64, (Zdigits2_log2 M HM). fold E.
    cbn [shr_record_of_loc].
    destruct (Z.eq_dec (E - e) 0) as [Hz | Hnz].
    - rewrite shr_nonpos by lia. cbn [shr_m loc_of_shr_record round_nearest_even].
      unfold m1. rewrite Hz. change (2 ^ 0) with 1. rewrite rne_div_1.
      replace E with e by lia. reflexivity.
    - rewrite shr_exact_pos by lia. cbn [shr_m].
      rewrite round_shr_rne by lia. fold m1.
      replace (e + (E - e)) with E by lia. reflexivity. }
  rewrite Hfirst. clear Hfirst.
  unfold round_result, shr_fexp. rewrite fexp_fexp64. cbn [shr_record_of_loc].
  change (emax - prec) with 971.
  destruct (Z.eqb_spec m1 0) as [Hm0 | Hm0].
  - rewrite Hm0. simpl Zdigits2. rewrite shr_nonpos by (unfold fexp64; lia).
    reflexivity.
  - assert (Hm1 : 0 < m1) by lia.
    rewrite (Zdigits2_log2 m1 Hm1).
    pose proof (digits_bounds m1 Hm1) as [Hlo1 Hhi1].
    destruct (Z.ltb_spec m1 (2 ^ 53)) as [Hlt | Hge].
    + assert (Z.log2 m1 < 53) by (apply Z.log2_lt_pow2; lia).
      rewrite shr_nonpos by (unfold fexp64; lia). cbn [shr_m].
      destruct m1 as [ | p | p]; try lia. reflexivity.
    + assert (Heq : m1 = 2 ^ 53) by lia.
      rewrite Heq. rewrite Z.log2_pow2 by lia.
      replace (fexp64 (53 + 1 + E) - E) with 1 by (unfold fexp64; lia).
      rewrite shr_exact_pos by lia. cbn [shr_m].
      reflexivity.
Qed.

Lemma rne_div_scale (N D c : Z) :
  0 < c -> 0 < D -> rne_div (N * c) (D * c) = rne_div N D.
Proof.
  intros Hc HD. unfold rne_div.
  rewrite Z.div_mul_cancel_r by lia.
  rewrite Z.mul_mod_distr_r by lia.
  destruct (Z.compare_spec (2 * (N mod D)) D);
    destruct (Z.compare_spec (2 * (N mod D * c)) (D * c));
    try reflexivity; nia.
Qed.

Lemma rne_div_mono (N1 N2 D : Z) :
  0 < D -> N1 <= N2 -> rne_div N1 D <= rne_div N2 D.
Proof.
  intros HD HN.
  pose proof (Z.div_le_mono N1 N2 D HD HN) as Hq.
  pose proof (rne_div_bounds N1 D) as B1.
  pose proof (rne_div_bounds N2 D) as B2.
  destruct (Z.eq_dec (N1 / D) (N2 / D)) as [Heq | Hne]; [ | lia].
  pose proof (Z.div_mod N1 D ltac:(lia)) as E1.
  pose proof (Z.div_mod N2 D ltac:(lia)) as E2.
  unfold rne_div in *. rewrite <- Heq in *.
  destruct (Z.compare_spec (2 * (N1 mod D)) D);
    destruct (Z.compare_spec (2 * (N2 mod D)) D);
    destruct (Z.even (N1 / D)); nia.
Qed.

Lemma rne_div_0 (D : Z) : 0 < D -> rne_div 0 D = 0.
Proof.
  intros HD. unfold rne_div. rewrite Z.mod_0_l, Z.div_0_l by lia.
  destruct (Z.compare_spec (2 * 0) D); try reflexivity; lia.
Qed.

Lemma Rnd_0 (t : Z) : 0 <= t -> Rnd t 0 = 0.
Proof.
  intros Ht. unfold Rnd. simpl Z.log2.
  rewrite rne_div_0; [reflexivity | apply Z.pow_pos_nonneg; lia].
Qed.

(** Rounding is monotone: within a binade because [rne_div] is, across
    binades because the smaller value rounds to at most the power of two
    that the larger value rounds to at least. *)
Lemma Rnd_mono (t V1 V2 : Z) :
  0 <= t -> 0 <= V1 -> V1 <= V2 -> Rnd t V1 <= Rnd t V2.
Proof.
  intros Ht H1 H12.
  destruct (Z.eq_dec V1 0) as [Hz | Hnz].
  { subst V1. rewrite Rnd_0 by assumption. unfold Rnd.
    set (k := Z.max _ t).
    assert (0 < 2 ^ k) by (apply Z.pow_pos_nonneg; lia).
    assert (0 <= 2 ^ (k - t)) by (apply Z.pow_nonneg; lia).
    pose proof (rne_div_bounds V2 (2 ^ k)).
    assert (0 <= V2 / 2 ^ k) by (apply Z.div_pos; lia). nia. }
  assert (HV1 : 0 < V1) by lia. assert (HV2 : 0 < V2) by lia.
  pose proof (Z.log2_le_mono V1 V2 H12) as Hlog.
  unfold Rnd.
  set (k1 := Z.max (Z.log2 V1 + 1 - 53) t).
  set (k2 := Z.max (Z.log2 V2 + 1 - 53) t).
  assert (Hk : k1 <= k2) by (unfold k1, k2; lia).
  assert (Hk1 : 0 <= k1) by (unfold k1; lia).
  assert (Hp1 : 0 < 2 ^ k1) by (apply Z.pow_pos_nonneg; lia).
  assert (Hp2 : 0 < 2 ^ k2) by (apply Z.pow_pos_nonneg; lia).
  destruct (Z.eq_dec k1 k2) as [Heq | Hne].
  - rewrite <- Heq.
    apply Z.mul_le_mono_nonneg_r; [apply Z.pow_nonneg; lia | ].
    apply rne_div_mono; assumption.
  - assert (Hk2 : k2 = Z.log2 V2 + 1 - 53) by (unfold k1, k2 in *; lia).
    pose proof (digits_bounds V1 HV1) as [_ Hhi1].
    pose proof (digits_bounds V2 HV2) as [Hlo2 _].
    (* the smaller input rounds to at most 2^(k1+53) *)
    assert (Hup : rne_div V1 (2 ^ k1) <= 2 ^ 53).
    { pose proof (rne_div_bounds V1 (2 ^ k1)) as B.
      assert (V1 / 2 ^ k1 < 2 ^ 53); [ | lia].
      apply Z.div_lt_upper_bound; [lia | ].
      rewrite <- Z.pow_add_r by lia.
      eapply Z.lt_le_trans; [exact Hhi1 | ].
      apply Z.pow_le_mono_r; unfold k1; lia. }
    (* the larger input rounds to at least 2^(k2+52) *)
    assert (Hdown : 2 ^ 52 <= rne_div V2 (2 ^ k2)).
    { pose proof (rne_div_bounds V2 (2 ^ k2)) as B.
      assert (2 ^ 52 <= V2 / 2 ^ k2); [ | lia].
      apply Z.div_le_lower_bound; [lia | ].
      rewrite <- Z.pow_add_r by lia.
      replace (k2 + 52) with (Z.log2 V2) by lia. exact Hlo2. }
    assert (Hq1 : 0 <= 2 ^ (k1 - t)) by (apply Z.pow_nonneg; lia).
    assert (Hq2 : 0 <= 2 ^ (k2 - t)) by (apply Z.pow_nonneg; lia).
    apply Z.le_trans with (2 ^ 53 * 2 ^ (k1 - t)).
    { apply Z.mul_le_mono_nonneg_r; assumption. }
    apply Z.le_trans with (2 ^ 52 * 2 ^ (k2 - t)).
    { rewrite <- !Z.pow_add_r by (unfold k1 in *; lia).
      apply Z.pow_le_mono_r; lia. }
    apply Z.mul_le_mono_nonneg_r; assumption.
Qed.

Lemma valid_finite_intro (s : bool) (m e : Z) :
  0 < m -> e <= 971 -> fexp64 (Z.log2 m + 1 + e) = e ->
  valid (S754_finite s (Z.to_pos m) e) = true.
Proof.
  intros Hm He Hc. unfold valid, valid_binary, bounded, canonical_mantissa.
  apply andb_true_intro. split.
  - apply Z.eqb_eq. rewrite fexp_fexp64.
    change (Z.pos (digits2_pos (Z.to_pos m))) with (Zdigits2 (Z.pos (Z.to_pos m))).
    rewrite Z2Pos.id by assumption. rewrite Zdigits2_log2 by assumption. exact Hc.
  - apply Z.leb_le. exact He.
Qed.

Lemma valid_finite_elim (s : bool) (m : positive) (e : Z) :
  valid (S754_finite s m e) = true ->
  e <= 971 /\ fexp64 (Z.log2 (Z.pos m) + 1 + e) = e.
Proof.
  unfold valid, valid_binary, bounded, canonical_mantissa.
  intros H. apply andb_prop in H. destruct H as [Hc He].
  apply Z.eqb_eq in Hc. apply Z.leb_le in He.
  rewrite fexp_fexp64 in Hc.
  change (Z.pos (digits2_pos m)) with (Zdigits2 (Z.pos m)) in Hc.
  rewrite Zdigits2_log2 in Hc by lia. split; [exact He | exact Hc].
Qed.

Lemma pow2_pos (k : Z) : 0 <= k -> 0 < 2 ^ k.
Proof. intros. apply Z.pow_pos_nonneg; lia. Qed.

Lemma top_pos : 0 < top.
Proof. unfold top. apply pow2_pos. lia. Qed.

(** The value of the result of [binary_round_aux] is the rounding of the
    exact value of its input, capped at [top]; the result is a valid
    non-negative number. *)
Lemma binary_round_aux_fval (M e b : Z) :
  0 < M ->
  e <= fexp64 (Z.log2 M + 1 + e) ->
  0 <= e + b -> 1074 <= b ->
  let f := binary_round_aux prec emax false M e loc_Exact in
  fval f = Z.min (Rnd (b - 1074) (M * 2 ^ (e + b))) top /\ nonneg_float f.
Proof.
  intros HM Hpre Heb Hb f.
  destruct (binary_round_aux_char M e HM Hpre) as [Hchar Hm1].
  set (E := fexp64 (Z.log2 M + 1 + e)) in *.
  set (m1 := rne_div M (2 ^ (E - e))) in *.
  assert (HE : -1074 <= E) by (unfold E, fexp64; lia).
  assert (HeE : e <= E) by exact Hpre.
  pose proof (digits_bounds M HM) as [Hlo Hhi].
  pose proof (pow2_pos (E - e) ltac:(lia)) as Hpn.
  pose proof (pow2_pos (e + b) ltac:(lia)) as Hpeb.
  pose proof (pow2_pos (E + 1074) ltac:(lia)) as HpE.
  pose proof (rne_div_bounds M (2 ^ (E - e))) as Hbd. fold m1 in Hbd.
  assert (Hq0 : 0 <= M / 2 ^ (E - e)) by (apply Z.div_pos; lia).
  (* the rounded mantissa is normal above the least exponent *)
  assert (Hnormal : -1074 < E -> 2 ^ 52 <= m1).
  { intros HEn. assert (HEd : E = Z.log2 M + 1 + e - 53) by (unfold E, fexp64 in *; lia).
    assert (2 ^ 52 <= M / 2 ^ (E - e)); [ | lia].
    apply Z.div_le_lower_bound; [lia | ].
    rewrite <- Z.pow_add_r by lia.
    replace (E - e + 52) with (Z.log2 M) by lia. exact Hlo. }
  (* value of the rounded mantissa at the target exponent *)
  assert (HR : Rnd (b - 1074) (M * 2 ^ (e + b)) = m1 * 2 ^ (E + 1074)).
  { unfold Rnd. rewrite Z.log2_mul_pow2 by lia.
    replace (Z.max (e + b + Z.log2 M + 1 - 53) (b - 1074)) with (E + b)
      by (unfold E, fexp64; lia).
    replace (E + b - (b - 1074)) with (E + 1074) by lia.
    replace (2 ^ (E + b)) with (2 ^ (E - e) * 2 ^ (e + b))
      by (rewrite <- Z.pow_add_r by lia; f_equal; lia).
    rewrite rne_div_scale by lia. reflexivity. }
  rewrite HR. unfold f. rewrite Hchar. unfold round_result.
  assert (Htop : top = 2 ^ 53 * 2 ^ (971 + 1074)) by reflexivity.
  destruct (Z.eqb_spec m1 0) as [Hz | Hnz].
  { rewrite Hz. simpl. split; [ | exact I]. pose proof top_pos. lia. }
  assert (Hm1p : 0 < m1) by lia.
  destruct (Z.ltb_spec m1 (2 ^ 53)) as [Hlt | Hge].
  - destruct (Z.leb_spec E 971) as [Hle | Hgt].
    + (* finite, no carry *)
      assert (Hval : m1 * 2 ^ (E + 1074) < top).
      { rewrite Htop.
        apply Z.lt_le_trans with (2 ^ 53 * 2 ^ (E + 1074)).
        - apply Z.mul_lt_mono_pos_r; assumption.
        - apply Z.mul_le_mono_nonneg_l; [lia | ].
          apply Z.pow_le_mono_r; lia. }
      cbn [fval cond_Zopp]. rewrite Z2Pos.id by assumption.
      split; [lia | ]. split; [reflexivity | ].
      apply valid_finite_intro; try assumption.
      pose proof (digits_bounds m1 Hm1p) as [Hl1 Hh1].
      assert (Z.log2 m1 < 53) by (apply Z.log2_lt_pow2; lia).
      destruct (Z.eq_dec E (-1074)) as [Hmin | Hnmin].
      * unfold fexp64. lia.
      * assert (52 <= Z.log2 m1) by (apply Z.log2_le_pow2; [lia | apply Hnormal; lia]).
        unfold fexp64. lia.
    + (* overflow, no carry *)
      cbn [fval cond_Zopp]. split; [ | reflexivity].
      assert (top <= m1 * 2 ^ (E + 1074)); [ | lia].
      rewrite Htop.
      apply Z.le_trans with (2 ^ 52 * 2 ^ (E + 1074)).
      * replace (2 ^ 53) with (2 ^ 52 * 2) by reflexivity.
        rewrite <- Z.mul_assoc. apply Z.mul_le_mono_nonneg_l; [lia | ].
        replace (2 * 2 ^ (971 + 1074)) with (2 ^ (972 + 1074)) by reflexivity.
        apply Z.pow_le_mono_r; lia.
      * apply Z.mul_le_mono_nonneg_r; [lia | apply Hnormal; lia].
  - assert (Heq : m1 = 2 ^ 53) by lia.
    destruct (Z.leb_spec (E + 1) 971) as [Hle | Hgt].
    + (* finite after a carry *)
      cbn [fval cond_Zopp]. rewrite Z2Pos.id by lia.
      assert (Hsame : 2 ^ 52 * 2 ^ (E + 1 + 1074) = m1 * 2 ^ (E + 1074)).
      { rewrite Heq. replace (E + 1 + 1074) with (1 + (E + 1074)) by lia.
        rewrite Z.pow_add_r by lia. change (2 ^ 1) with 2.
        replace (2 ^ 53) with (2 ^ 52 * 2) by reflexivity. ring. }
      rewrite Hsame.
      assert (Hval : m1 * 2 ^ (E + 1074) < top).
      { rewrite Htop, Heq. apply Z.mul_lt_mono_pos_l; [lia | ].
        apply Z.pow_lt_mono_r; lia. }
      split; [lia | ]. split; [reflexivity | ].
      apply valid_finite_intro; [lia | lia | ].
      rewrite Z.log2_pow2 by lia. unfold fexp64. lia.
    + cbn [fval cond_Zopp]. split; [ | reflexivity].
      assert (top <= m1 * 2 ^ (E + 1074)); [ | lia].
      rewrite Htop, Heq. apply Z.mul_le_mono_nonneg_l; [lia | ].
      apply Z.pow_le_mono_r; lia.
Qed.

Lemma fval_pos_finite (f : spec_float) : pos_finite f -> 0 < fval f < top.
Proof.
  destruct f as [ | | | [ | ] m e]; simpl; try tauto.
  intros Hv. apply (valid_finite_elim false) in Hv. destruct Hv as [He Hc].
  assert (Hem : -1074 <= e) by (unfold fexp64 in Hc; lia).
  assert (Hlog : Z.log2 (Z.pos m) < 53) by (unfold fexp64 in Hc; lia).
  pose proof (pow2_pos (e + 1074) ltac:(lia)) as Hp.
  split; [lia | ].
  assert (Hm : Z.pos m < 2 ^ 53) by (apply Z.log2_lt_pow2; lia).
  change top with (2 ^ 53 * 2 ^ (971 + 1074)).
  apply Z.lt_le_trans with (2 ^ 53 * 2 ^ (e + 1074)).
  - apply Z.mul_lt_mono_pos_r; assumption.
  - apply Z.mul_le_mono_nonneg_l; [lia | ]. apply Z.pow_le_mono_r; lia.
Qed.

Lemma fval_nonneg_float (f : spec_float) : nonneg_float f -> 0 <= fval f <= top.
Proof.
  pose proof top_pos.
  destruct f as [s | s | | s m e]; cbn [nonneg_float].
  - intros _. simpl. lia.
  - intros ->. simpl. lia.
  - intros [].
  - intros [-> Hv]. pose proof (fval_pos_finite (S754_finite false m e) Hv) as Hb.
    lia.
Qed.

Lemma nonneg_float_cases (f : spec_float) :
  nonneg_float f ->
  (exists s, f = S754_zero s) \/ pos_finite f \/ f = S754_infinity false.
Proof.
  destruct f as [s | s | | s m e]; simpl.
  - intros _. left. exists s. reflexivity.
  - intros ->. right. right. reflexivity.
  - tauto.
  - intros [-> Hv]. right. left. exact Hv.
Qed.

(** The product of two positive finite numbers is the rounding of the
    exact product of their values. *)
Lemma fmul_pos_finite (x c : spec_float) :
  pos_finite x -> pos_finite c ->
  fval (fmul x c) = Z.min (Rnd 1074 (fval x * fval c)) top
  /\ nonneg_float (fmul x c).
Proof.
  destruct x as [ | | | [ | ] mx ex]; simpl; try tauto.
  destruct c as [ | | | [ | ] mc ec]; simpl; try tauto.
  intros Hx Hc.
  apply (valid_finite_elim false) in Hx. destruct Hx as [Hxe Hxc].
  apply (valid_finite_elim false) in Hc. destruct Hc as [Hce Hcc].
  pose proof (Z.log2_mul_below (Z.pos mx) (Z.pos mc) ltac:(lia) ltac:(lia)) as Hlog.
  assert (Hpre : ex + ec <= fexp64 (Z.log2 (Z.pos (mx * mc)) + 1 + (ex + ec))).
  { rewrite Pos2Z.inj_mul.
    pose proof (Z.log2_nonneg (Z.pos mx)). pose proof (Z.log2_nonneg (Z.pos mc)).
    unfold fexp64 in *. lia. }
  assert (Hb : 0 <= ex + ec + 2148) by (unfold fexp64 in *; lia).
  assert (Hpos : 0 < Z.pos (mx * mc)) by lia.
  assert (Hbias : 1074 <= 2148) by lia.
  destruct (binary_round_aux_fval (Z.pos (mx * mc)) (ex + ec) 2148
              Hpos Hpre Hb Hbias) as [Hval Hnn].
  unfold fmul, SFmul. cbn [xorb].
  split; [ | exact Hnn].
  rewrite Hval. f_equal. f_equal.
  rewrite Pos2Z.inj_mul.
  replace (ex + ec + 2148) with ((ex + 1074) + (ec + 1074)) by lia.
  rewrite Z.pow_add_r by (unfold fexp64 in *; lia). ring.
Qed.

(** Multiplication is monotone on the non-negative numbers, in both
    arguments, for positive finite multipliers. *)
Lemma fmul_mono (x1 x2 c1 c2 : spec_float) :
  nonneg_float x1 -> nonneg_float x2 ->
  pos_finite c1 -> pos_finite c2 ->
  fval x1 <= fval x2 -> fval c1 <= fval c2 ->
  fval (fmul x1 c1) <= fval (fmul x2 c2)
  /\ nonneg_float (fmul x1 c1) /\ nonneg_float (fmul x2 c2).
Proof.
  intros N1 N2 P1 P2 Hx Hc.
  pose proof (fval_pos_finite c1 P1) as B1.
  pose proof (fval_pos_finite c2 P2) as B2.
  assert (Hzero : forall s c, pos_finite c ->
            fval (fmul (S754_zero s) c) = 0 /\ nonneg_float (fmul (S754_zero s) c)).
  { intros s [ | | | [ | ] m e]; simpl; tauto. }
  assert (Hinf : forall c, pos_finite c ->
            fval (fmul (S754_infinity false) c) = top
            /\ nonneg_float (fmul (S754_infinity false) c)).
  { intros [ | | | [ | ] m e]; simpl; tauto. }
  destruct (nonneg_float_cases x1 N1) as [[s1 ->] | [F1 | ->]];
    destruct (nonneg_float_cases x2 N2) as [[s2 ->] | [F2 | ->]].
  - destruct (Hzero s1 c1 P1) as [-> ?], (Hzero s2 c2 P2) as [-> ?]. auto with zarith.
  - destruct (Hzero s1 c1 P1) as [-> ?].
    destruct (fmul_pos_finite x2 c2 F2 P2) as [? Hn].
    pose proof (fval_nonneg_float _ Hn). auto with zarith.
  - destruct (Hzero s1 c1 P1) as [-> ?], (Hinf c2 P2) as [-> ?].
    pose proof top_pos. auto with zarith.
  - pose proof (fval_pos_finite x1 F1). simpl in Hx. lia.
  - destruct (fmul_pos_finite x1 c1 F1 P1) as [E1 Hn1].
    destruct (fmul_pos_finite x2 c2 F2 P2) as [E2 Hn2].
    pose proof (fval_pos_finite x1 F1). pose proof (fval_pos_finite x2 F2).
    split; [ | auto].
    rewrite E1, E2. apply Z.min_le_compat_r.
    apply Rnd_mono; [lia | nia | nia].
  - destruct (fmul_pos_finite x1 c1 F1 P1) as [E1 Hn1].
    destruct (Hinf c2 P2) as [-> ?].
    pose proof (fval_nonneg_float _ Hn1). auto with zarith.
  - simpl in Hx. pose proof top_pos. lia.
  - pose proof (fval_pos_finite x2 F2). simpl in Hx. lia.
  - destruct (Hinf c1 P1) as [-> ?], (Hinf c2 P2) as [-> ?]. auto with zarith.
Qed.

Lemma iter_xO_pow2 (p d : positive) :
  Z.pos (Pos.iter xO p d) = Z.pos p * 2 ^ Z.pos d.
Proof.
  rewrite <- Z.shiftl_mul_pow2 by lia. unfold Z.shiftl.
  apply (Pos.iter_swap_gen _ _ Z.pos xO (Z.mul 2)). intros a. reflexivity.
Qed.

Lemma shl_align_spec (p : positive) (e e' : Z) :
  snd (shl_align p e e') = Z.min e e'
  /\ Z.pos (fst (shl_align p e e')) = Z.pos p * 2 ^ (e - Z.min e e').
Proof.
  unfold shl_align. destruct (e' - e) as [ | d | d] eqn:Hd; cbn [fst snd].
  - replace (Z.min e e') with e by lia. rewrite Z.sub_diag. simpl. lia.
  - replace (Z.min e e') with e by lia. rewrite Z.sub_diag. simpl. lia.
  - replace (Z.min e e') with e' by lia. split; [reflexivity | ].
    rewrite iter_xO_pow2. f_equal. f_equal. lia.
Qed.

(** Conversion of a positive integer rounds its exact value. *)
Lemma of_Z_pos (z : Z) :
  0 < z ->
  fval (of_Z z) = Z.min (Rnd 0 (z * 2 ^ 1074)) top /\ nonneg_float (of_Z z).
Proof.
  intros Hz. destruct z as [ | p | p]; try lia.
  unfold of_Z, binary_normalize, binary_round.
  rewrite fexp_fexp64.
  change (Z.pos (digits2_pos p)) with (Zdigits2 (Z.pos p)).
  rewrite Zdigits2_log2 by lia.
  set (e' := fexp64 (Z.log2 (Z.pos p) + 1 + 0)).
  destruct (shl_align_spec p 0 e') as [Hez Hmz].
  destruct (shl_align p 0 e') as [mz ez]. cbn [fst snd] in Hez, Hmz.
  assert (He' : -1074 <= e') by (unfold e', fexp64; lia).
  assert (Hlog : Z.log2 (Z.pos mz) = Z.log2 (Z.pos p) + (0 - ez)).
  { rewrite Hmz, Hez, Z.log2_mul_pow2 by lia. lia. }
  assert (Hpre : ez <= fexp64 (Z.log2 (Z.pos mz) + 1 + ez)).
  { rewrite Hlog. replace (Z.log2 (Z.pos p) + (0 - ez) + 1 + ez)
      with (Z.log2 (Z.pos p) + 1 + 0) by lia. fold e'. lia. }
  assert (Hpos : 0 < Z.pos mz) by lia.
  assert (Hb : 0 <= ez + 1074) by lia.
  assert (Hbias : 1074 <= 1074) by lia.
  destruct (binary_round_aux_fval (Z.pos mz) ez 1074 Hpos Hpre Hb Hbias)
    as [Hval Hnn].
  split; [ | exact Hnn].
  rewrite Hval. replace (1074 - 1074) with 0 by lia. f_equal. f_equal.
  rewrite Hmz, <- Z.mul_assoc, <- Z.pow_add_r by lia. f_equal. f_equal. lia.
Qed.

(** Rounding leaves the value of a valid number unchanged. *)
Lemma Rnd_pos_finite (f : spec_float) :
  pos_finite f -> Rnd 0 (fval f) = fval f.
Proof.
  destruct f as [ | | | [ | ] m e]; cbn [pos_finite]; try tauto.
  intros Hv. apply (valid_finite_elim false) in Hv. destruct Hv as [He Hc].
  assert (Hem : -1074 <= e) by (unfold fexp64 in Hc; lia).
  cbn [fval cond_Zopp]. unfold Rnd.
  rewrite Z.log2_mul_pow2 by lia.
  replace (Z.max (e + 1074 + Z.log2 (Z.pos m) + 1 - 53) 0) with (e + 1074)
    by (unfold fexp64 in Hc; lia).
  pose proof (pow2_pos (e + 1074) ltac:(lia)) as Hp.
  rewrite Z.sub_0_r. f_equal.
  unfold rne_div. rewrite Z.mod_mul, Z.div_mul by lia.
  destruct (Z.compare_spec (2 * 0) (2 ^ (e + 1074))); try reflexivity; lia.
Qed.

Lemma Rnd_top : Rnd 0 top = top.
Proof. vm_compute. reflexivity. Qed.

(** [int(f)] on a non-negative number. *)
Lemma py_int_nonneg (f : spec_float) :
  nonneg_float f ->
  (fval f < top /\ py_int f = inr (fval f / 2 ^ 1074))
  \/ (fval f = top /\ py_int f = inl OverflowError).
Proof.
  intros Hn. destruct (nonneg_float_cases f Hn) as [[s ->] | [Hf | ->]].
  - left. pose proof top_pos. simpl. split; [lia | reflexivity].
  - left. pose proof (fval_pos_finite f Hf) as Hb. split; [lia | ].
    destruct f as [ | | | [ | ] m e]; cbn [pos_finite] in Hf; try tauto.
    apply (valid_finite_elim false) in Hf. destruct Hf as [He Hc].
    assert (Hem : -1074 <= e) by (unfold fexp64 in Hc; lia).
    cbn [py_int trunc fval cond_Zopp]. f_equal.
    destruct (Z.leb_spec 0 e) as [Hpos | Hneg].
    + rewrite Z.pow_add_r by lia. rewrite Z.mul_assoc, Z.div_mul; [reflexivity | ].
      pose proof (pow2_pos 1074 ltac:(lia)). lia.
    + replace (2 ^ 1074) with (2 ^ (- e) * 2 ^ (e + 1074))
        by (rewrite <- Z.pow_add_r by lia; f_equal; lia).
      pose proof (pow2_pos (e + 1074) ltac:(lia)).
      pose proof (pow2_pos (- e) ltac:(lia)).
      rewrite Z.div_mul_cancel_r by lia. reflexivity.
  - right. split; reflexivity.
Qed.

Lemma num_mul_float_to_float (x : pynum) (c : spec_float) :
  num_mul_float x c = do f <- to_float x; inr (fmul f c).
Proof. destruct x; reflexivity. Qed.

Lemma valid_pos_nonneg (f : spec_float) :
  valid f = true -> 0 < fval f -> nonneg_float f.
Proof.
  pose proof top_pos as Ht.
  destruct f as [s | [ | ] | | [ | ] m e]; cbn [fval cond_Zopp nonneg_float]; intros Hv Hp;
    try lia; try tauto.
Qed.

Lemma num_gt0_units (x : pynum) :
  valid_num x -> (num_gt0 x = true <-> 0 < units x).
Proof.
  pose proof top_pos as Ht. pose proof (pow2_pos 1074 ltac:(lia)) as Hp.
  destruct x as [z | f]; cbn [valid_num num_gt0 units].
  - intros _. rewrite Z.ltb_lt. split; nia.
  - intros Hv.
    destruct f as [s | [ | ] | | [ | ] m e]; cbn [fval cond_Zopp];
      unfold fltb, SFltb; cbn [SFcompare]; split; intros H; try discriminate;
      try reflexivity; try lia.
    apply (valid_finite_elim false) in Hv. destruct Hv as [He Hc].
    assert (-1074 <= e) by (unfold fexp64 in Hc; lia).
    pose proof (pow2_pos (e + 1074) ltac:(lia)). nia.
Qed.

Lemma nonneg_top_inf (f : spec_float) :
  nonneg_float f -> fval f = top -> f = S754_infinity false.
Proof.
  intros Hn Ht. destruct (nonneg_float_cases f Hn) as [[s ->] | [Hf | ->]].
  - pose proof top_pos. simpl in Ht. lia.
  - pose proof (fval_pos_finite f Hf). lia.
  - reflexivity.
Qed.

Lemma float_of_int_pos (z : Z) :
  0 < z ->
  (fval (of_Z z) < top /\ float_of_int z = inr (of_Z z))
  \/ (fval (of_Z z) = top /\ float_of_int z = inl OverflowError).
Proof.
  intros Hz. destruct (of_Z_pos z Hz) as [_ Hn]. unfold float_of_int.
  destruct (nonneg_float_cases _ Hn) as [[s E] | [Hf | E]].
  - rewrite E. left. pose proof top_pos. simpl. split; [lia | reflexivity].
  - left. pose proof (fval_pos_finite _ Hf). split; [lia | ].
    destruct (of_Z z) as [ | | | [ | ] m e]; cbn [pos_finite] in Hf; tauto.
  - rewrite E. right. split; reflexivity.
Qed.

(** Conversion to [float] is monotone where it is defined. *)
Lemma to_float_mono (d1 d2 : pynum) (g2 : spec_float) :
  valid_num d1 -> valid_num d2 ->
  0 < units d1 -> units d1 <= units d2 ->
  to_float d2 = inr g2 -> fval g2 < top ->
  exists g1, to_float d1 = inr g1
             /\ nonneg_float g1 /\ nonneg_float g2 /\ fval g1 <= fval g2.
Proof.
  intros V1 V2 Hpos Hle Hg2 Hfin.
  pose proof (pow2_pos 1074 ltac:(lia)) as Hp.
  assert (Hpos2 : 0 < units d2) by lia.
  assert (Hsrc2 : nonneg_float g2 /\ fval g2 = Z.min (Rnd 0 (units d2)) top).
  { destruct d2 as [z2 | f2]; cbn [to_float units valid_num] in *.
    - assert (Hz2 : 0 < z2) by nia.
      destruct (of_Z_pos z2 Hz2) as [Hv Hn].
      destruct (float_of_int_pos z2 Hz2) as [[_ E] | [_ E]]; rewrite E in Hg2;
        [ | discriminate].
      injection Hg2 as <-. split; assumption.
    - injection Hg2 as <-.
      pose proof (valid_pos_nonneg f2 V2 Hpos2) as Hn. split; [exact Hn | ].
      destruct (nonneg_float_cases f2 Hn) as [[s ->] | [Hf | ->]].
      + simpl in Hpos2. lia.
      + rewrite Rnd_pos_finite by assumption. lia.
      + simpl in Hfin. lia. }
  destruct Hsrc2 as [Hn2 Hval2].
  assert (Hmono : Rnd 0 (units d1) <= Rnd 0 (units d2)) by (apply Rnd_mono; lia).
  destruct d1 as [z1 | f1]; cbn [to_float units valid_num] in *.
  - assert (Hz1 : 0 < z1) by nia.
    destruct (of_Z_pos z1 Hz1) as [Hv Hn].
    destruct (float_of_int_pos z1 Hz1) as [[_ E] | [Ht _]].
    + exists (of_Z z1). repeat split; try assumption. lia.
    + lia.
  - exists f1. pose proof (valid_pos_nonneg f1 V1 Hpos) as Hn.
    repeat split; try assumption.
    destruct (nonneg_float_cases f1 Hn) as [[s ->] | [Hf | ->]].
    + simpl. pose proof (fval_nonneg_float g2 Hn2). lia.
    + rewrite Rnd_pos_finite in Hmono by assumption.
      pose proof (fval_pos_finite f1 Hf). lia.
    + cbn [fval cond_Zopp] in *.
      assert (top <= Rnd 0 (units d2)); [ | lia].
      rewrite <- Rnd_top. pose proof top_pos. apply Rnd_mono; lia.
Qed.

(** ** Comparison of binary64 numbers *)

Lemma finite_magnitude (s : bool) (m : positive) (e : Z) :
  valid (S754_finite s m e) = true -> 0 < Z.pos m * 2 ^ (e + 1074) < top.
Proof. intros Hv. exact (fval_pos_finite (S754_finite false m e) Hv). Qed.

(** Among valid numbers a smaller exponent means a smaller magnitude. *)
Lemma canonical_order (s1 s2 : bool) (m1 m2 : positive) (e1 e2 : Z) :
  valid (S754_finite s1 m1 e1) = true ->
  valid (S754_finite s2 m2 e2) = true ->
  e1 < e2 ->
  Z.pos m1 * 2 ^ (e1 + 1074) < Z.pos m2 * 2 ^ (e2 + 1074).
Proof.
  intros V1 V2 He.
  apply valid_finite_elim in V1, V2. destruct V1 as [_ C1], V2 as [_ C2].
  unfold fexp64 in C1, C2.
  assert (Hm1 : Z.pos m1 < 2 ^ 53) by (apply Z.log2_lt_pow2; lia).
  assert (Hm2 : 2 ^ 52 <= Z.pos m2).
  { replace 52 with (Z.log2 (Z.pos m2)) by lia. apply Z.log2_spec. lia. }
  pose proof (pow2_pos (e1 + 1074) ltac:(lia)) as Hp1.
  pose proof (pow2_pos (e2 + 1074) ltac:(lia)) as Hp2.
  apply Z.lt_le_trans with (2 ^ 53 * 2 ^ (e1 + 1074)).
  - apply Z.mul_lt_mono_pos_r; assumption.
  - apply Z.le_trans with (2 ^ 52 * 2 ^ (e2 + 1074)).
    + rewrite <- !Z.pow_add_r by lia. apply Z.pow_le_mono_r; lia.
    + apply Z.mul_le_mono_nonneg_r; lia.
Qed.

Lemma compare_magnitudes (m1 m2 : positive) (e1 e2 : Z) :
  valid (S754_finite false m1 e1) = true ->
  valid (S754_finite false m2 e2) = true ->
  match e1 ?= e2 with
  | Lt => Lt
  | Gt => Gt
  | Eq => Pos.compare_cont Eq m1 m2
  end
  = (Z.pos m1 * 2 ^ (e1 + 1074) ?= Z.pos m2 * 2 ^ (e2 + 1074)).
Proof.
  intros V1 V2. symmetry.
  destruct (Z.compare_spec e1 e2) as [-> | Hlt | Hgt].
  - pose proof (finite_magnitude false m1 e2 V1) as B.
    change (Pos.compare_cont Eq m1 m2) with (Z.pos m1 ?= Z.pos m2).
    destruct (Z.compare_spec (Z.pos m1) (Z.pos m2)) as [E | L | G].
    + rewrite E. apply Z.compare_refl.
    + apply Z.compare_lt_iff. nia.
    + apply Z.compare_gt_iff. nia.
  - apply Z.compare_lt_iff. exact (canonical_order false false m1 m2 e1 e2 V1 V2 Hlt).
  - apply Z.compare_gt_iff. exact (canonical_order false false m2 m1 e2 e1 V2 V1 Hgt).
Qed.

(** The IEEE comparison of two valid numbers other than NaN is the
    comparison of their exact values. *)
Lemma SFcompare_fval (f g : spec_float) :
  valid f = true -> valid g = true ->
  f <> S754_nan -> g <> S754_nan ->
  SFcompare f g = Some (fval f ?= fval g).
Proof.
  intros Vf Vg Nf Ng. pose proof top_pos as Ht.
  destruct f as [s1 | s1 | | s1 m1 e1]; [ | | congruence | ];
    destruct g as [s2 | s2 | | s2 m2 e2]; try congruence;
    cbn [SFcompare fval]; f_equal; symmetry;
    try pose proof (finite_magnitude s1 m1 e1 Vf) as B1;
    try pose proof (finite_magnitude s2 m2 e2 Vg) as B2.
  - destruct s2; cbn [cond_Zopp];
      [apply Z.compare_gt_iff | apply Z.compare_lt_iff]; lia.
  - destruct s2; cbn [cond_Zopp];
      [apply Z.compare_gt_iff | apply Z.compare_lt_iff]; lia.
  - destruct s1; cbn [cond_Zopp];
      [apply Z.compare_lt_iff | apply Z.compare_gt_iff]; lia.
  - destruct s1, s2; cbn [cond_Zopp];
      first [apply Z.compare_refl | apply Z.compare_lt_iff; lia
            | apply Z.compare_gt_iff; lia].
  - destruct s1, s2; cbn [cond_Zopp];
      first [apply Z.compare_lt_iff; lia | apply Z.compare_gt_iff; lia].
  - destruct s1; cbn [cond_Zopp];
      [apply Z.compare_lt_iff | apply Z.compare_gt_iff]; lia.
  - destruct s1, s2; cbn [cond_Zopp];
      first [apply Z.compare_lt_iff; lia | apply Z.compare_gt_iff; lia].
  - destruct s1, s2; cbn [cond_Zopp].
    + rewrite Z.compare_opp, Z.compare_antisym.
      rewrite <- (compare_magnitudes m1 m2 e1 e2 Vf Vg).
      destruct (e1 ?= e2); reflexivity.
    + apply Z.compare_lt_iff. lia.
    + apply Z.compare_gt_iff. lia.
    + symmetry. exact (compare_magnitudes m1 m2 e1 e2 Vf Vg).
Qed.

(** [f <= g] on valid numbers other than NaN. *)
Lemma SFleb_fval (f g : spec_float) :
  valid f = true -> valid g = true ->
  f <> S754_nan -> g <> S754_nan ->
  SFleb f g = true <-> fval f <= fval g.
Proof.
  intros Vf Vg Nf Ng. unfold SFleb. rewrite (SFcompare_fval f g Vf Vg Nf Ng).
  unfold Z.le. destruct (fval f ?= fval g); split; intros H;
    first [reflexivity | discriminate H | congruence | exfalso; apply H; reflexivity].
Qed.

(** The order of the exact values is the order of [<=] of the
    interpreter, on [int]s and on [float]s. *)
Lemma units_order :
  (forall a b : Z, units (PyInt a) <= units (PyInt b) <-> a <= b)
  /\ (forall f g : spec_float,
        valid f = true -> valid g = true ->
        f <> S754_nan -> g <> S754_nan ->
        (units (PyFloat f) <= units (PyFloat g) <-> SFleb f g = true)).
Proof.
  split.
  - intros a b. cbn [units]. pose proof (pow2_pos 1074 ltac:(lia)) as Hp.
    split; intros H; nia.
  - intros f g Vf Vg Nf Ng. symmetry. apply SFleb_fval; assumption.
Qed.

(** ** Requirement calculation *)

Lemma complexity_map_lookup (s : string) :
  complexity_map !! s
  = if String.eqb s "low" then Some f1_0
    else if String.eqb s "medium" then Some f1_3
    else if String.eqb s "high" then Some f1_6
    else None.
Proof.
  unfold complexity_map.
  destruct (String.eqb_spec s "low") as [-> | Hl]; [reflexivity | ].
  rewrite lookup_insert_ne by congruence.
  destruct (String.eqb_spec s "medium") as [-> | Hm]; [reflexivity | ].
  rewrite lookup_insert_ne by congruence.
  destruct (String.eqb_spec s "high") as [-> | Hh]; [reflexivity | ].
  rewrite lookup_singleton_ne by congruence. reflexivity.
Qed.

Lemma dict_get_complexity (complexity : pyval) :
  dict_get complexity_map complexity f1_3 = tier_multiplier complexity.
Proof.
  destruct complexity as [s | n]; [ | reflexivity].
  unfold dict_get, tier_multiplier, py_eq_str. rewrite complexity_map_lookup.
  destruct (String.eqb s "low"); [reflexivity | ].
  destruct (String.eqb s "medium"); [reflexivity | ].
  destruct (String.eqb s "high"); reflexivity.
Qed.

Lemma tier_multiplier_cases (tier : pyval) :
  tier_multiplier tier = f1_0 \/ tier_multiplier tier = f1_3
  \/ tier_multiplier tier = f1_6.
Proof.
  unfold tier_multiplier.
  destruct (py_eq_str tier "low"); [tauto | ].
  destruct (py_eq_str tier "medium"); [tauto | ].
  destruct (py_eq_str tier "high"); tauto.
Qed.

Lemma pos_finite_f1_0 : pos_finite f1_0. Proof. reflexivity. Qed.
Lemma pos_finite_f1_2 : pos_finite f1_2. Proof. reflexivity. Qed.
Lemma pos_finite_f1_3 : pos_finite f1_3. Proof. reflexivity. Qed.
Lemma pos_finite_f1_5 : pos_finite f1_5. Proof. reflexivity. Qed.

Lemma tier_multiplier_pos_finite (tier : pyval) : pos_finite (tier_multiplier tier).
Proof.
  destruct (tier_multiplier_cases tier) as [-> | [-> | ->]]; reflexivity.
Qed.

Lemma fval_f1_0_f1_3 : fval f1_0 <= fval f1_3.
Proof. apply Z.leb_le. vm_compute. reflexivity. Qed.

Lemma fval_f1_3_f1_6 : fval f1_3 <= fval f1_6.
Proof. apply Z.leb_le. vm_compute. reflexivity. Qed.

Lemma pos_finite_f0_8 : pos_finite f0_8. Proof. reflexivity. Qed.


Lemma calculate_by_distance (d : pynum) (complexity duration : pyval) :
  num_gt0 d = true ->
  calculate_resource_requirement (VNum d) complexity duration
  = do g <- to_float d; py_int (scaled_total f1_5 g (tier_multiplier complexity)).
Proof.
  intros Hd. unfold calculate_resource_requirement, base_requirement.
  rewrite dict_get_complexity. cbn [py_gt0 ebind]. rewrite Hd.
  cbn [py_mul_float]. rewrite num_mul_float_to_float.
  destruct (to_float d) as [e | g]; reflexivity.
Qed.

Lemma calculate_by_duration (distance d : pynum) (complexity : pyval) :
  num_gt0 distance = false ->
  num_gt0 d = true ->
  calculate_resource_requirement (VNum distance) complexity (VNum d)
  = do g <- to_float d; py_int (scaled_total f0_8 g (tier_multiplier complexity)).
Proof.
  intros Hdist Hd. unfold calculate_resource_requirement, base_requirement.
  rewrite dict_get_complexity. cbn [py_gt0 ebind]. rewrite Hdist. cbn [ebind].
  rewrite Hd. cbn [py_mul_float]. rewrite num_mul_float_to_float.
  destruct (to_float d) as [e | g]; reflexivity.
Qed.

Lemma scaled_total_mono (rate g1 g2 m1 m2 : spec_float) :
  pos_finite rate ->
  nonneg_float g1 -> nonneg_float g2 -> pos_finite m1 -> pos_finite m2 ->
  fval g1 <= fval g2 -> fval m1 <= fval m2 ->
  fval (scaled_total rate g1 m1) <= fval (scaled_total rate g2 m2)
  /\ nonneg_float (scaled_total rate g1 m1) /\ nonneg_float (scaled_total rate g2 m2).
Proof.
  intros Pr N1 N2 P1 P2 Hg Hm. unfold scaled_total.
  destruct (fmul_mono g1 g2 rate rate N1 N2 Pr Pr Hg (Z.le_refl _))
    as (Ha & Na1 & Na2).
  destruct (fmul_mono _ _ m1 m2 Na1 Na2 P1 P2 Ha Hm) as (Hb & Nb1 & Nb2).
  exact (fmul_mono _ _ f1_2 f1_2 Nb1 Nb2 pos_finite_f1_2 pos_finite_f1_2 Hb
           (Z.le_refl _)).
Qed.

(** [int] is monotone on non-negative numbers. *)
Lemma py_int_mono (a b : spec_float) (rb : Z) :
  nonneg_float a -> nonneg_float b -> fval a <= fval b ->
  py_int b = inr rb ->
  exists ra, py_int a = inr ra /\ 0 <= ra <= rb.
Proof.
  intros Na Nb Hab Hb.
  pose proof (pow2_pos 1074 ltac:(lia)) as Hp.
  destruct (py_int_nonneg b Nb) as [[Hfin E] | [_ E]]; rewrite E in Hb;
    [ | discriminate].
  injection Hb as <-.
  destruct (py_int_nonneg a Na) as [[_ Ea] | [Ht _]].
  - exists (fval a / 2 ^ 1074). split; [exact Ea | ].
    pose proof (fval_nonneg_float a Na).
    split; [apply Z.div_pos; lia | apply Z.div_le_mono; lia].
  - lia.
Qed.

Lemma scaled_total_inf (rate m : spec_float) :
  pos_finite rate -> pos_finite m ->
  scaled_total rate (S754_infinity false) m = S754_infinity false.
Proof.
  destruct rate as [ | | | [ | ] mr er]; cbn [pos_finite]; intros Hr;
    try contradiction.
  destruct m as [ | | | [ | ] mm e]; cbn [pos_finite]; intros H;
    first [contradiction | reflexivity].
Qed.

Lemma tier_multiplier_mono (t1 t2 : pyval) :
  tier_le t1 t2 -> fval (tier_multiplier t1) <= fval (tier_multiplier t2).
Proof.
  intros H. destruct H.
  - apply Z.le_refl.
  - exact fval_f1_0_f1_3.
  - exact fval_f1_3_f1_6.
  - exact (Z.le_trans _ _ _ fval_f1_0_f1_3 fval_f1_3_f1_6).
Qed.

(** Monotonicity of the chain in the measure and in the multiplier: when
    the computation on the larger pair returns, so does the one on the
    smaller pair, with a smaller or equal result. *)
Lemma chain_monotone (rate m1 m2 : spec_float) (d1 d2 : pynum) (r2 : Z) :
  pos_finite rate -> pos_finite m1 -> pos_finite m2 ->
  fval m1 <= fval m2 ->
  valid_num d1 -> valid_num d2 ->
  0 < units d1 -> units d1 <= units d2 ->
  (do g <- to_float d2; py_int (scaled_total rate g m2)) = inr r2 ->
  exists r1,
    (do g <- to_float d1; py_int (scaled_total rate g m1)) = inr r1
    /\ 0 <= r1 <= r2.
Proof.
  intros Pr P1 P2 Hm V1 V2 Hpos1 Hle Hr2.
  destruct (to_float d2) as [e | g2] eqn:Hg2; [discriminate | ].
  cbn [ebind] in Hr2.
  assert (Hfin : fval g2 < top).
  { assert (Hn2 : nonneg_float g2).
    { destruct d2 as [z2 | f2]; cbn [to_float units valid_num] in *.
      - assert (Hz2 : 0 < z2) by (pose proof (pow2_pos 1074 ltac:(lia)); nia).
        destruct (of_Z_pos z2 Hz2) as [_ Hn].
        destruct (float_of_int_pos z2 Hz2) as [[_ E] | [_ E]]; rewrite E in Hg2;
          [injection Hg2 as <-; exact Hn | discriminate].
      - injection Hg2 as <-. apply valid_pos_nonneg; [assumption | lia]. }
    pose proof (fval_nonneg_float g2 Hn2) as Hb.
    destruct (Z.eq_dec (fval g2) top) as [Heq | Hne]; [ | lia].
    rewrite (nonneg_top_inf g2 Hn2 Heq), scaled_total_inf in Hr2 by assumption.
    discriminate. }
  destruct (to_float_mono d1 d2 g2 V1 V2 Hpos1 Hle Hg2 Hfin)
    as (g1 & Hg1 & N1 & N2 & Hg).
  rewrite Hg1. cbn [ebind].
  destruct (scaled_total_mono rate g1 g2 m1 m2 Pr N1 N2 P1 P2 Hg Hm)
    as (Hs & Ns1 & Ns2).
  exact (py_int_mono _ _ r2 Ns1 Ns2 Hs Hr2).
Qed.

(** C6. Required capacity is monotonically increasing (non-decreasing, as
    the result is a truncated integer) in the distance and in the tier
    order low <= medium <= high: for positive distances [d1 <= d2] and
    tiers [t1 <= t2], whenever the calculation returns [r2] on
    [(d2, t2)] it returns some [r1 <= r2] on [(d1, t1)].  Taking
    [t1 = t2] gives monotonicity in the distance for every tier (known or
    not), taking [d1 = d2] gives monotonicity across the tiers for a fixed
    distance.  Distances are compared by their exact values, which is the
    order of [<=] on [int]s and on [float]s ([units_order]). *)
Theorem requirement_monotone
    (d1 d2 : pynum) (t1 t2 duration1 duration2 : pyval) (r2 : Z) :
  valid_num d1 -> valid_num d2 ->
  num_gt0 d1 = true ->
  units d1 <= units d2 ->
  tier_le t1 t2 ->
  calculate_resource_requirement (VNum d2) t2 duration2 = inr r2 ->
  exists r1,
    calculate_resource_requirement (VNum d1) t1 duration1 = inr r1 /\ r1 <= r2.
Proof.
  intros V1 V2 Hgt Hle Ht Hr2.
  pose proof (proj1 (num_gt0_units d1 V1) Hgt) as Hpos1.
  assert (Hgt2 : num_gt0 d2 = true) by (apply (num_gt0_units d2 V2); lia).
  rewrite calculate_by_distance in Hr2 by assumption.
  rewrite calculate_by_distance by assumption.
  destruct (chain_monotone f1_5 (tier_multiplier t1) (tier_multiplier t2) d1 d2 r2
              pos_finite_f1_5 (tier_multiplier_pos_finite t1)
              (tier_multiplier_pos_finite t2) (tier_multiplier_mono t1 t2 Ht)
              V1 V2 Hpos1 Hle Hr2) as (r1 & Hr1 & Hb).
  exists r1. split; [exact Hr1 | lia].
Qed.

Lemma requirement_monotone_witness :
  calculate_resource_requirement (VInt 26) (VStr "medium") (VInt 0) = inr 60
  /\ exists r1,
       calculate_resource_requirement (VInt 25) (VStr "low") (VInt 0) = inr r1
       /\ r1 <= 60.
Proof.
  split; [vm_compute; reflexivity | ].
  apply (requirement_monotone (PyInt 25) (PyInt 26) (VStr "low") (VStr "medium")
           (VInt 0) (VInt 0) 60).
  - exact I.
  - exact I.
  - reflexivity.
  - apply Z.mul_le_mono_nonneg_r; [apply Z.pow_nonneg | ]; lia.
  - constructor.
  - vm_compute. reflexivity.
Defined.

(** The order is not strict: at distance 1 the medium and the high tier
    both require 2. *)
Example requirement_not_strict :
  calculate_resource_requirement (VInt 1) (VStr "medium") (VInt 0) = inr 2
  /\ calculate_resource_requirement (VInt 1) (VStr "high") (VInt 0) = inr 2.
Proof. split; vm_compute; reflexivity. Qed.





(** On a distance that is not an integer the rounding of the products can
    cross an integer: for the binary64 number nearest to 1000/234 the
    calculation returns 10, where the exact product of its value with
    2.34 lies just below 10. *)
Example requirement_rounds_products :
  calculate_resource_requirement (VFloat (literal 1000 234)) (VStr "medium") (VInt 0)
  = inr 10
  /\ units (PyFloat (literal 1000 234)) * 234 / (100 * 2 ^ 1074) = 9.
Proof. split; vm_compute; reflexivity. Qed.

(** The other two use cases of the console entry point, and the default
    base. *)
Example calc_demo_delivery :
  calculate_resource_requirement (VInt 15) (VStr "high") (VInt 0) = inr 43.
Proof. vm_compute. reflexivity. Qed.

Example calc_demo_production :
  calculate_resource_requirement (VInt 0) (VStr "low") (VInt 45) = inr 43.
Proof. vm_compute. reflexivity. Qed.

Example calc_default_base :
  calculate_resource_requirement (VInt 0) (VStr "medium") (VInt 0) = inr 46.
Proof. vm_compute. reflexivity. Qed.

(** ** The browser variant *)

Lemma ui_total_option (distance : Z) (label tier : string) :
  ui_option label tier ->
  ui_total distance label
  = do base <- num_mul_float (PyInt distance) f1_5;
    inr (fmul base (tier_multiplier (VStr tier))).
Proof. intros H. destruct H; reflexivity. Qed.

(** X23. For a positive distance and each option of the selector, the
    console variant returns the truncation of the browser variant's total
    load multiplied by 1.2: the browser variant leaves the margin out. *)
Lemma console_total_is_ui_total_with_margin (distance : Z) (label tier : string)
    (duration : pyval) :
  0 < distance ->
  ui_option label tier ->
  calculate_resource_requirement (VInt distance) (VStr tier) duration
  = do total <- ui_total distance label; py_int (fmul total f1_2).
Proof.
  intros Hd Hopt. rewrite (ui_total_option distance label tier Hopt).
  unfold VInt. rewrite calculate_by_distance by (apply Z.ltb_lt; exact Hd).
  rewrite num_mul_float_to_float.
  destruct (to_float (PyInt distance)) as [e | g]; reflexivity.
Qed.

(** C3. On the default form (distance 25, "Medium - Standard operation")
    the browser variant computes the total load 48.75 = 25 x 1.5 x 1.3,
    whose truncation is 48, where the console variant requires 58, the
    truncation of 48.75 x 1.2: the browser variant's total does not
    include the 20% safety margin. *)
Theorem ui_total_omits_safety_margin :
  ui_total 25 "Medium - Standard operation" = inr ui_load_25_medium
  /\ py_int ui_load_25_medium = inr 48
  /\ py_int (fmul ui_load_25_medium f1_2) = inr 58
  /\ calculate_resource_requirement (VInt 25) (VStr "medium") (VInt 0) = inr 58.
Proof. repeat split; vm_compute; reflexivity. Qed.

(** ** Resource selection *)

(** *** Python's [max] with a key *)

Lemma py_max_by_fold {A : Type} (key : A -> Z) (xs : list A) :
  forall (before : list A) (best : A) (mid : list A),
    Forall (fun r => key r < key best) before ->
    Forall (fun r => key r <= key best) mid ->
    exists before' mid',
      before ++ best :: mid ++ xs = before' ++ py_max_by key best xs :: mid'
      /\ Forall (fun r => key r < key (py_max_by key best xs)) before'
      /\ Forall (fun r => key r <= key (py_max_by key best xs)) mid'.
Proof.
  unfold py_max_by.
  induction xs as [ | y ys IH]; intros before best mid Hb Hm.
  - exists before, mid. rewrite app_nil_r. auto.
  - cbn [fold_left]. destruct (Z.ltb_spec (key best) (key y)) as [Hlt | Hge].
    + destruct (IH (before ++ best :: mid) y []) as (b' & m' & Heq & Hb' & Hm').
      * apply Forall_app. split.
        -- eapply Forall_impl; [exact Hb | ]. intros r Hr. simpl in Hr. lia.
        -- constructor; [exact Hlt | ].
           eapply Forall_impl; [exact Hm | ]. intros r Hr. simpl in Hr. lia.
      * constructor.
      * exists b', m'. split; [ | auto].
        rewrite <- Heq. rewrite <- !app_assoc. reflexivity.
    + destruct (IH before best (mid ++ [y])) as (b' & m' & Heq & Hb' & Hm').
      * exact Hb.
      * apply Forall_app. split; [exact Hm | ]. constructor; [lia | constructor].
      * exists b', m'. split; [ | auto].
        rewrite <- Heq. rewrite <- !app_assoc. reflexivity.
Qed.

(** [py_max_by] returns the first element of maximal key. *)
Lemma py_max_by_first_max {A : Type} (key : A -> Z) (x : A) (xs : list A) :
  exists before after,
    x :: xs = before ++ py_max_by key x xs :: after
    /\ Forall (fun r => key r < key (py_max_by key x xs)) before
    /\ Forall (fun r => key r <= key (py_max_by key x xs)) after.
Proof.
  destruct (py_max_by_fold key xs [] x []) as (b & m & Heq & Hb & Hm);
    [constructor | constructor | ].
  exists b, m. auto.
Qed.







(** ** The environment service *)

Lemma map3_lookup {A : Type} (k1 k2 k3 : string) (v1 v2 v3 : A) (s : string) :
  lookup (M := gmap string A) s {[ k1 := v1; k2 := v2; k3 := v3 ]}
  = if String.eqb s k1 then Some v1
    else if String.eqb s k2 then Some v2
    else if String.eqb s k3 then Some v3
    else None.
Proof.
  destruct (String.eqb_spec s k1) as [-> | H1]; [apply lookup_insert_eq | ].
  rewrite lookup_insert_ne by congruence.
  destruct (String.eqb_spec s k2) as [-> | H2]; [apply lookup_insert_eq | ].
  rewrite lookup_insert_ne by congruence.
  destruct (String.eqb_spec s k3) as [-> | H3]; [apply lookup_singleton_eq | ].
  apply lookup_singleton_ne. congruence.
Qed.

Ltac rewrite_map3 :=
  match goal with
  | |- context [ @lookup _ _ _ _ ?s
                   (@insert _ _ _ _ ?k1 ?v1
                      (@insert _ _ _ _ ?k2 ?v2 (@singletonM _ _ _ _ ?k3 ?v3))) ] =>
      rewrite (map3_lookup k1 k2 k3 v1 v2 v3 s)
  end.

Lemma dict_get_map3 {A : Type} (k1 k2 k3 : string) (v1 v2 v3 : A) (key : pyval) :
  dict_get {[ k1 := v1; k2 := v2; k3 := v3 ]} key v1
  = if py_eq_str key k1 then v1
    else if py_eq_str key k2 then v2
    else if py_eq_str key k3 then v3
    else v1.
Proof.
  destruct key as [s | n]; [ | reflexivity].
  unfold dict_get, py_eq_str. rewrite map3_lookup.
  destruct (String.eqb s k1); [reflexivity | ].
  destruct (String.eqb s k2); [reflexivity | ].
  destruct (String.eqb s k3); reflexivity.
Qed.

Lemma bind_run {A B : Type} (m : M A) (k : A -> M B) (w w' : world) (a : A) :
  m w = (inr a, w') -> bind m k w = k a w'.
Proof. intros H. unfold bind. rewrite H. reflexivity. Qed.

Lemma bind_raise {A B : Type} (m : M A) (k : A -> M B) (w w' : world) (e : exn) :
  m w = (inl e, w') -> bind m k w = (inl e, w').
Proof. intros H. unfold bind. rewrite H. reflexivity. Qed.

Lemma choice_run_first {A : Type} (x : A) (xs : list A) (w : world) :
  choice x xs w = (inr (nth (outcome w 0 (S (length xs))) (x :: xs) x), advance 1 w).
Proof. reflexivity. Qed.

Lemma choice_run {A : Type} (x : A) (xs : list A) (k : nat) (w : world) :
  choice x xs (advance k w)
  = (inr (nth (outcome w k (S (length xs))) (x :: xs) x), advance (S k) w).
Proof. reflexivity. Qed.

Lemma randint_run (a b : Z) (k : nat) (w : world) :
  randint a b (advance k w)
  = (inr (a + Z.of_nat (outcome w k (Z.to_nat (b - a + 1)))), advance (S k) w).
Proof. reflexivity. Qed.

Lemma randint_run_first (a b : Z) (w : world) :
  randint a b w
  = (inr (a + Z.of_nat (outcome w 0 (Z.to_nat (b - a + 1)))), advance 1 w).
Proof. reflexivity. Qed.

Ltac draw :=
  erewrite bind_run by first [apply choice_run | apply randint_run]; cbv beta.

(** [check_conditions] never raises: it consumes nine outcomes and returns
    the reading that the task type selects. *)
Lemma check_conditions_run (location task_type : pyval) (w : world) :
  check_conditions location task_type w = (inr (reading_of task_type w), advance 9 w).
Proof.
  unfold check_conditions.
  erewrite bind_run by apply choice_run_first. cbv beta.
  do 8 draw. cbv zeta.
  erewrite bind_run
    by (unfold lift, dict_index; rewrite lookup_insert_eq; reflexivity).
  unfold ret.
  change (dict_get _ task_type _)
    with (dict_get {[ "drone_mission" := drone_reading w;
                      "delivery_route" := route_reading w;
                      "production_job" := facility_reading w ]}
            task_type (drone_reading w)).
  rewrite dict_get_map3. unfold reading_of.
  destruct (py_eq_str task_type "drone_mission") eqn:Hd; [ | reflexivity].
  destruct task_type as [s | n]; [ | discriminate].
  apply String.eqb_eq in Hd. subst s. reflexivity.
Qed.

Lemma lift_run {A : Type} (r : exn + A) (w : world) : lift r w = (r, w).
Proof. reflexivity. Qed.

Lemma reading_of_cases (task_type : pyval) (w : world) :
  reading_of task_type w = route_reading w
  \/ reading_of task_type w = facility_reading w
  \/ reading_of task_type w = drone_reading w.
Proof.
  unfold reading_of.
  destruct (py_eq_str task_type "delivery_route"); [tauto | ].
  destruct (py_eq_str task_type "production_job"); tauto.
Qed.

(** The safety check always returns, after exactly nine draws; its flag
    is the [safe] field of the selected reading, and an approval always
    carries the same fixed reason. *)
Lemma check_environment_safety_run (self : Agent) (location task_type : pyval)
    (w : world) :
  exists reason,
    check_environment_safety self location task_type w
    = (inr (safe (reading_of task_type w), reason), advance 9 w)
    /\ (safe (reading_of task_type w) = true -> reason = favorable).
Proof.
  unfold check_environment_safety.
  erewrite bind_run by apply check_conditions_run. cbv beta.
  destruct (safe (reading_of task_type w)) eqn:Hsafe; cbn [negb].
  - exists favorable. split; reflexivity.
  - destruct (reading_of_cases task_type w) as [E | [E | E]]; rewrite E in *.
    + change (cond_type (route_reading w)) with "traffic".
      cbn [String.eqb Ascii.eqb Bool.eqb].
      erewrite bind_run;
        [eexists; split; [reflexivity | intros Hf; discriminate Hf] | ].
      unfold lift, dict_index, route_reading. cbn [details].
      rewrite map3_lookup. reflexivity.
    + discriminate Hsafe.
    + change (cond_type (drone_reading w)) with "weather".
      cbn [String.eqb Ascii.eqb Bool.eqb].
      erewrite bind_run;
        [eexists; split; [reflexivity | intros Hf; discriminate Hf] | ].
      unfold lift, dict_index, drone_reading. cbn [details].
      rewrite map3_lookup. reflexivity.
Qed.

(** ** Execution planning *)

Lemma outcome_below (w : world) (k n : nat) : (0 < n)%nat -> (outcome w k n < n)%nat.
Proof. intros Hn. unfold outcome. apply Nat.mod_upper_bound. lia. Qed.

Lemma randint_range (a b : Z) (w : world) (k : nat) :
  a <= b ->
  a <= a + Z.of_nat (outcome w k (Z.to_nat (b - a + 1))) <= b.
Proof.
  intros Hab. pose proof (outcome_below w k (Z.to_nat (b - a + 1)) ltac:(lia)). lia.
Qed.

Lemma plan_body_run (i : Z) (acc : list PlanStep) (k : nat) (w : world) :
  plan_body i acc (advance k w)
  = (inr (acc ++ [mkPlanStep (i + 1) [Lit "Execute phase "; Fmt (VInt (i + 1))]
                    (5 + Z.of_nat (outcome w k (Z.to_nat (20 - 5 + 1))))]),
     advance (S k) w).
Proof.
  unfold plan_body. erewrite bind_run by apply randint_run. reflexivity.
Qed.

(** The loop of [plan_execution_path]: [n] iterations append [n] steps,
    numbered from [i + 1], each with a duration of [[5, 20]], and consume
    [n] outcomes. *)
Lemma plan_loop (n : nat) :
  forall (i : Z) (acc : list PlanStep) (k : nat) (w : world),
  exists new,
    for_range n i plan_body acc (advance k w) = (inr (acc ++ new), advance (n + k) w)
    /\ length new = n
    /\ Forall (fun s => 5 <= estimated_time_min s <= 20) new
    /\ map step_number new = seqZ (i + 1) (Z.of_nat n).
Proof.
  induction n as [ | n IH]; intros i acc k w.
  - exists []. rewrite app_nil_r. repeat split; constructor.
  - cbn [for_range]. erewrite bind_run by apply plan_body_run. cbv beta.
    destruct (IH (i + 1)
                (acc ++ [mkPlanStep (i + 1) [Lit "Execute phase "; Fmt (VInt (i + 1))]
                           (5 + Z.of_nat (outcome w k (Z.to_nat (20 - 5 + 1))))])
                (S k) w) as (new & Hrun & Hlen & Hall & Hnum).
    eexists (_ :: new). split; [ | split; [ | split]].
    + rewrite Hrun, <- app_assoc. cbn [app].
      replace (n + S k)%nat with (S n + k)%nat by lia. reflexivity.
    + cbn [length]. rewrite Hlen. reflexivity.
    + constructor; [ | exact Hall]. cbn [estimated_time_min].
      apply randint_range. lia.
    + cbn [map step_number]. rewrite Hnum.
      replace (Z.of_nat (S n)) with (Z.succ (Z.of_nat n)) by lia.
      rewrite (seqZ_cons (i + 1) (Z.succ (Z.of_nat n))) by lia.
      rewrite Z.pred_succ. reflexivity.
Qed.

Lemma sum_times_fold (l : list PlanStep) (a : Z) :
  fold_left (fun acc s => acc + estimated_time_min s) l a
  = a + foldr Z.add 0 (map estimated_time_min l).
Proof.
  revert a. induction l as [ | s l IH]; intros a; cbn [fold_left foldr map].
  - lia.
  - rewrite IH. lia.
Qed.

Lemma sum_times_foldr (l : list PlanStep) :
  sum_times l = foldr Z.add 0 (map estimated_time_min l).
Proof. unfold sum_times. rewrite sum_times_fold. lia. Qed.

(** [plan_execution_path] never raises and only consumes outcomes of the
    random source. *)
Lemma plan_execution_path_run (self : Agent) (task_details : gmap string pyval)
    (w : world) :
  exists plan n,
    plan_execution_path self task_details w = (inr plan, advance (S n) w)
    /\ 3 <= total_steps plan <= 7
    /\ Z.of_nat (length (steps plan)) = total_steps plan
    /\ Forall (fun s => 5 <= estimated_time_min s <= 20) (steps plan)
    /\ map step_number (steps plan) = seqZ 1 (total_steps plan)
    /\ estimated_duration_min plan
       = foldr Z.add 0 (map estimated_time_min (steps plan)).
Proof.
  unfold plan_execution_path.
  set (num_steps := 3 + Z.of_nat (outcome w 0 (Z.to_nat (7 - 3 + 1)))).
  assert (Hnum : 3 <= num_steps <= 7) by (apply randint_range; lia).
  destruct (plan_loop (Z.to_nat num_steps) 0 [] 1 w)
    as (new & Hrun & Hlen & Hall & Hnums).
  cbn [app] in Hrun.
  exists (mkPlan (default (VStr "Base") (task_details !! "start_location"))
            (default (VStr "Target") (task_details !! "end_location"))
            num_steps (sum_times new) new "Return to base if issues arise").
  exists (Z.to_nat num_steps).
  split; [ | cbn [total_steps steps estimated_duration_min]; repeat split].
  - cbv zeta.
    erewrite bind_run by apply randint_run_first.
    cbv beta. fold num_steps.
    erewrite bind_run by exact Hrun.
    cbv beta. unfold ret.
    replace (Z.to_nat num_steps + 1)%nat with (S (Z.to_nat num_steps)) by lia.
    reflexivity.
  - lia.
  - lia.
  - lia.
  - exact Hall.
  - rewrite Hnums. f_equal. lia.
  - apply sum_times_foldr.
Qed.


(** ** Decision log and orchestration *)

Lemma log_decision_run (self : Agent) (step : string) (decision reasoning : fstring)
    (w : world) :
  log_decision self step decision reasoning w
  = (inr tt, logged w (decision_log self)
               (mkLogEntry (clock w (ticks w)) step decision reasoning)).
Proof. reflexivity. Qed.

Lemma log_at_logged (w : world) (l : nat) (e : LogEntry) :
  log_at (logged w l e) l = log_at w l ++ [e].
Proof. unfold log_at at 1, logged. cbn [heap]. rewrite lookup_insert_eq. reflexivity. Qed.

Lemma heap_logged_other (w : world) (l l' : nat) (e : LogEntry) :
  l' <> l -> heap (logged w l e) !! l' = heap w !! l'.
Proof. intros H. unfold logged. cbn [heap]. apply lookup_insert_ne. congruence. Qed.

Lemma log_at_advance (k : nat) (w : world) (l : nat) :
  log_at (advance k w) l = log_at w l.
Proof. reflexivity. Qed.

(** The selection never raises and records exactly one entry. *)
Lemma select_optimal_resource_run (self : Agent) (resource_type : pyval)
    (min_capacity : Z) (w : world) :
  exists entry,
    select_optimal_resource self resource_type min_capacity w
    = (inr (selection resource_type min_capacity),
       logged w (decision_log self) entry)
    /\ step entry = "Resource Selection".
Proof.
  unfold select_optimal_resource, selection.
  destruct (available_resources _ _) as [ | x xs].
  - erewrite bind_run by apply log_decision_run. eexists. split; reflexivity.
  - cbv zeta. erewrite bind_run by apply log_decision_run.
    eexists. split; reflexivity.
Qed.

(** The trace of one evaluation: whatever its outcome (approval,
    rejection at either stage, or an exception of the calculation), the
    run appends to the agent's list the entry of the environment stage
    followed by entries of later stages, and touches no other list; a
    returned decision carries the agent's own list; an unsafe reading ends
    the run after that one entry and the nine draws of the check. *)
Lemma make_autonomous_decision_trace (self : Agent) (task_request : gmap string pyval)
    (w : world) :
  let l := decision_log self in
  let approved := safe (reading_of (task_type_of task_request) w) in
  let result := make_autonomous_decision self task_request w in
  exists reason rest,
    check_environment_safety self
      (default (VStr "Unknown") (task_request !! "location"))
      (task_type_of task_request) w
    = (inr (approved, reason), advance 9 w)
    /\ log_at (snd result) l
       = log_at w l ++ environment_entry w approved reason :: rest
    /\ (forall l', l' <> l -> heap (snd result) !! l' = heap w !! l')
    /\ (forall d, fst result = inr d -> returned_log d = l)
    /\ (approved = false ->
        rest = [] /\ fst result = inr (Rejected reason l)
        /\ cursor (snd result) = (9 + cursor w)%nat)
    /\ (approved = true -> reason = favorable)
    /\ Forall (fun e => step e <> "Environment Analysis") rest.
Proof.
  intros l approved result.
  destruct (check_environment_safety_run self
              (default (VStr "Unknown") (task_request !! "location"))
              (task_type_of task_request) w) as [reason [Hsafe Hfav]].
  fold approved in Hsafe, Hfav.
  exists reason.
  unfold result, make_autonomous_decision. cbv zeta.
  fold (task_type_of task_request).
  erewrite bind_run by exact Hsafe. cbv beta. cbn [fst snd].
  destruct approved; cbn [negb].
  - (* conditions approved *)
    erewrite bind_run by apply log_decision_run. cbv beta.
    set (w1 := logged (advance 9 w) (decision_log self) _).
    assert (Hw1 : log_at w1 l = log_at w l ++ [environment_entry w true reason])
      by exact (log_at_logged (advance 9 w) l _).
    assert (Ho1 : forall l', l' <> l -> heap w1 !! l' = heap w !! l')
      by exact (fun l' Hl' => heap_logged_other (advance 9 w) l l' _ Hl').
    destruct (calculate_resource_requirement _ _ _) as [err | required_capacity].
    + (* the calculation raises *)
      erewrite bind_raise by apply lift_run.
      exists []. cbn [fst snd].
      split; [exact Hsafe | ]. split; [exact Hw1 | ]. split; [exact Ho1 | ].
      split; [intros d Hd; discriminate Hd | ].
      split; [intros Hf; discriminate Hf | ].
      split; [exact Hfav | constructor].
    + erewrite bind_run by apply lift_run. cbv beta.
      erewrite bind_run by apply log_decision_run. cbv beta.
      set (w2 := logged w1 (decision_log self) _).
      destruct (select_optimal_resource_run self
                  (default (VStr "drone") (task_request !! "resource_type"))
                  required_capacity w2) as (sel_entry & Hsel & Hstep).
      erewrite bind_run by exact Hsel. cbv beta.
      set (w3 := logged w2 (decision_log self) sel_entry).
      assert (Hw3 : log_at w3 l
                    = log_at w l ++ environment_entry w true reason
                        :: [mkLogEntry (clock w1 (ticks w1)) "Requirement Analysis"
                              [Lit "Required Capacity: "; Fmt (VInt required_capacity);
                               Lit "%"]
                              [Lit "Distance: ";
                               Fmt (default (VInt 0) (task_request !! "distance"));
                               Lit ", Complexity: ";
                               Fmt (default (VStr "medium")
                                      (task_request !! "complexity"))];
                            sel_entry]).
      { unfold w3, w2. rewrite !log_at_logged. fold l. rewrite Hw1.
        rewrite <- !app_assoc. reflexivity. }
      assert (Ho3 : forall l', l' <> l -> heap w3 !! l' = heap w !! l').
      { intros l' Hl'. unfold w3, w2. rewrite !heap_logged_other by exact Hl'.
        apply Ho1. exact Hl'. }
      destruct (selection _ required_capacity) as [chosen | ].
      * (* approved *)
        destruct (plan_execution_path_run self task_request w3)
          as (plan & n & Hplan & _).
        erewrite bind_run by exact Hplan. cbv beta.
        erewrite bind_run by apply log_decision_run. cbv beta.
        unfold ret. cbn [fst snd].
        eexists. split; [exact Hsafe | ]. split; [ | split; [ | split; [ | split; [ | split]]]].
        -- rewrite log_at_logged, log_at_advance. fold l. rewrite Hw3.
           rewrite <- app_assoc. cbn [app]. reflexivity.
        -- intros l' Hl'. rewrite heap_logged_other by exact Hl'. apply Ho3. exact Hl'.
        -- intros d Hd. injection Hd as <-. reflexivity.
        -- intros Hf. discriminate Hf.
        -- exact Hfav.
        -- constructor; [intros Hf; discriminate Hf | ].
           constructor; [rewrite Hstep; intros Hf; discriminate Hf | ].
           constructor; [intros Hf; discriminate Hf | ].
           constructor.
      * (* no resource *)
        unfold ret. cbn [fst snd].
        eexists. split; [exact Hsafe | ]. split; [ | split; [ | split; [ | split; [ | split]]]].
        -- exact Hw3.
        -- exact Ho3.
        -- intros d Hd. injection Hd as <-. reflexivity.
        -- intros Hf. discriminate Hf.
        -- exact Hfav.
        -- constructor; [intros Hf; discriminate Hf | ].
           constructor; [rewrite Hstep; intros Hf; discriminate Hf | ].
           constructor.
  - (* rejected at the environment stage *)
    erewrite bind_run by apply log_decision_run. cbv beta.
    unfold ret. cbn [fst snd].
    exists []. split; [exact Hsafe | ]. split; [ | split; [ | split; [ | split; [ | split]]]].
    + exact (log_at_logged (advance 9 w) l _).
    + exact (fun l' Hl' => heap_logged_other (advance 9 w) l l' _ Hl').
    + intros d Hd. injection Hd as <-. reflexivity.
    + intros _. repeat split.
    + intros Hf. discriminate Hf.
    + constructor.
Qed.

(** C4, as stated, fails: the type "maintenance_check" is neither the
    drone-mission nor the delivery-route type, and its reading is the
    weather reading. *)
Lemma facility_for_every_other_type_counterexample :
  ~ (forall (location task_type : pyval) (w : world),
       task_type <> VStr "drone_mission" ->
       task_type <> VStr "delivery_route" ->
       exists c w',
         check_conditions location task_type w = (inr c, w')
         /\ cond_type c = "facility").
Proof.
  intros H.
  destruct (H (VStr "Hangar 7") (VStr "maintenance_check") world0)
    as (c & w' & Hrun & Htype); [discriminate | discriminate | ].
  rewrite check_conditions_run in Hrun. injection Hrun as <- _.
  discriminate Htype.
Qed.

(** C4, amended. For every task-type tag that is neither the
    drone-mission nor the delivery-route type, the environment check
    returns a facility reading when the tag is the production-job type,
    and otherwise falls back to the weather reading of the drone-mission
    type. *)
Theorem other_task_types_reading (location task_type : pyval) (w : world) :
  task_type <> VStr "drone_mission" ->
  task_type <> VStr "delivery_route" ->
  exists c w',
    check_conditions location task_type w = (inr c, w')
    /\ cond_type c
       = if py_eq_str task_type "production_job" then "facility" else "weather".
Proof.
  intros Hd Hr. exists (reading_of task_type w), (advance 9 w).
  split; [apply check_conditions_run | ].
  unfold reading_of.
  destruct (py_eq_str task_type "delivery_route") eqn:E.
  - destruct task_type as [s | n]; [ | discriminate E].
    apply String.eqb_eq in E. congruence.
  - destruct (py_eq_str task_type "production_job"); reflexivity.
Qed.

Lemma other_task_types_reading_witness :
  exists c w',
    check_conditions (VStr "Hangar 7") (VStr "inspection_task") world0 = (inr c, w')
    /\ cond_type c = "weather".
Proof.
  apply (other_task_types_reading (VStr "Hangar 7") (VStr "inspection_task") world0);
    discriminate.
Defined.



(** C8, as stated, fails: after two successive rejected evaluations on
    one agent, the log returned by the second call still holds the entry
    that the first call recorded (stamped with the first reading of the
    clock). *)
Lemma decision_log_per_run_counterexample :
  ~ (forall (self : Agent) (request1 request2 : gmap string pyval)
            (w w1 w2 : world) (d1 d2 : Decision),
       make_autonomous_decision self request1 w = (inr d1, w1) ->
       make_autonomous_decision self request2 w1 = (inr d2, w2) ->
       forall e, e ∈ log_at w2 (returned_log d2) ->
                 e ∉ log_at w1 (returned_log d1)).
Proof.
  intros H.
  destruct (make_autonomous_decision agent0 drone_task unsafe_world)
    as [[err1 | d1] w1] eqn:E1; [vm_compute in E1; discriminate E1 | ].
  destruct (make_autonomous_decision agent0 drone_task w1)
    as [[err2 | d2] w2] eqn:E2.
  { vm_compute in E1. injection E1 as <- <-. vm_compute in E2. discriminate E2. }
  specialize (H agent0 drone_task drone_task unsafe_world w1 w2 d1 d2 E1 E2).
  vm_compute in E1. injection E1 as <- <-.
  vm_compute in E2. injection E2 as <- <-.
  set (e := mkLogEntry "0" "Environment Analysis" [Lit "TASK REJECTED"] unsafe_reason).
  apply (H e).
  - vm_compute. apply list_elem_of_here.
  - vm_compute. apply list_elem_of_here.
Qed.

(** C8, amended. The decision log belongs to the agent and persists
    across its invocations: for every agent and every two successive
    calls of the evaluation on it, both calls return the agent's own list,
    each call appends at least one entry to it, and the log returned by
    the second call is the log returned by the first call followed by the
    entries of the second run. *)
Theorem decision_log_accumulates (self : Agent)
    (request1 request2 : gmap string pyval) (w w1 w2 : world) (d1 d2 : Decision) :
  make_autonomous_decision self request1 w = (inr d1, w1) ->
  make_autonomous_decision self request2 w1 = (inr d2, w2) ->
  returned_log d1 = decision_log self
  /\ returned_log d2 = decision_log self
  /\ exists new1 new2,
       new1 <> [] /\ new2 <> []
       /\ log_at w1 (returned_log d1) = log_at w (decision_log self) ++ new1
       /\ log_at w2 (returned_log d2) = log_at w1 (returned_log d1) ++ new2.
Proof.
  intros E1 E2.
  destruct (make_autonomous_decision_trace self request1 w)
    as (reason1 & rest1 & _ & Hlog1 & _ & Hret1 & _).
  destruct (make_autonomous_decision_trace self request2 w1)
    as (reason2 & rest2 & _ & Hlog2 & _ & Hret2 & _).
  rewrite E1 in Hlog1, Hret1. rewrite E2 in Hlog2, Hret2.
  cbn [fst snd] in *.
  rewrite (Hret1 d1 eq_refl), (Hret2 d2 eq_refl).
  split; [reflexivity | split; [reflexivity | ]].
  eexists. eexists.
  split; [ | split; [ | split; [exact Hlog1 | exact Hlog2]]];
    intros Hnil; discriminate Hnil.
Qed.

Lemma decision_log_accumulates_witness :
  let w1 := snd (make_autonomous_decision agent0 drone_task unsafe_world) in
  let w2 := snd (make_autonomous_decision agent0 drone_task w1) in
  returned_log (Rejected unsafe_reason 0) = decision_log agent0
  /\ exists new1 new2,
       new1 <> [] /\ new2 <> []
       /\ log_at w1 0 = log_at unsafe_world 0 ++ new1
       /\ log_at w2 0 = log_at w1 0 ++ new2.
Proof.
  intros w1 w2.
  destruct (decision_log_accumulates agent0 drone_task drone_task
              unsafe_world w1 w2
              (Rejected unsafe_reason 0) (Rejected unsafe_reason 0))
    as (H1 & _ & H3).
  - vm_compute. reflexivity.
  - vm_compute. reflexivity.
  - split; [exact H1 | exact H3].
Defined.

(** The constructor leaves the agent with an empty log at a new address,
    and touches no other list. *)
Lemma init_log_empty (industry : string) (w : world) :
  exists agent w',
    init industry w = (inr agent, w')
    /\ heap w !! decision_log agent = None
    /\ log_at w' (decision_log agent) = []
    /\ (forall l, l <> decision_log agent -> heap w' !! l = heap w !! l)
    /\ cursor w' = cursor w /\ draws w' = draws w.
Proof.
  eexists. eexists. split; [reflexivity | ].
  cbn [decision_log heap cursor draws].
  split; [ | split; [ | split; [ | split; reflexivity]]].
  - apply not_elem_of_dom, is_fresh.
  - unfold log_at. cbn [heap]. rewrite lookup_insert_eq. reflexivity.
  - intros l Hl. apply lookup_insert_ne. congruence.
Qed.

(** One use case of the console entry point whose environment check
    reports unsafe ends with a log of exactly one entry. *)
Lemma run_use_case_rejected (industry : string) (task_request : gmap string pyval)
    (w : world) :
  safe (reading_of (task_type_of task_request) w) = false ->
  exists reason l w',
    run_use_case industry task_request w = (inr (Rejected reason l), w')
    /\ length (log_at w' l) = 1%nat.
Proof.
  intros Hunsafe.
  destruct (init_log_empty industry w)
    as (agent & w0 & Hinit & _ & Hempty & _ & Hcur & Hdraws).
  destruct (make_autonomous_decision_trace agent task_request w0)
    as (reason & rest & _ & Hlog & _ & _ & Hrej & _).
  assert (Hsame : reading_of (task_type_of task_request) w0
                  = reading_of (task_type_of task_request) w).
  { unfold reading_of, route_reading, facility_reading, drone_reading, outcome.
    rewrite Hcur, Hdraws. reflexivity. }
  rewrite Hsame, Hunsafe in Hlog, Hrej.
  destruct (Hrej eq_refl) as (-> & Hres & _).
  exists reason, (decision_log agent),
    (snd (make_autonomous_decision agent task_request w0)).
  split.
  - unfold run_use_case. erewrite bind_run by exact Hinit.
    rewrite <- Hres. apply surjective_pairing.
  - rewrite Hlog, Hempty. reflexivity.
Qed.


(** The first use case of the console entry point, in a world where the
    conditions are safe: the task is approved with the resource of
    capacity 100 for a requirement of 58, and the log of the run has the
    four entries of the four stages. *)
Example demo_drone_run :
  exists plan status completion l w,
    run_use_case "drone_operations" drone_task world0
    = (inr (Approved "RESOURCE-004"
              [Fmt (VInt 100); Lit "% (required: "; Fmt (VInt 58); Lit "%)"]
              plan status completion l), w)
    /\ map step (log_at w l)
       = ["Environment Analysis"; "Requirement Analysis"; "Resource Selection";
          "Final Decision"].
Proof. vm_compute. repeat eexists. Qed.

(** * Further properties *)

(** ** Execution planning, continued *)

(** The loop of [plan_execution_path], with the label of every step. *)
Lemma plan_loop_labels (n : nat) :
  forall (i : Z) (acc : list PlanStep) (k : nat) (w : world),
  exists new,
    for_range n i plan_body acc (advance k w) = (inr (acc ++ new), advance (n + k) w)
    /\ length new = n
    /\ Forall (fun s => 5 <= estimated_time_min s <= 20
                        /\ action s = [Lit "Execute phase "; Fmt (VInt (step_number s))])
         new
    /\ map step_number new = seqZ (i + 1) (Z.of_nat n).
Proof.
  induction n as [ | n IH]; intros i acc k w.
  - exists []. rewrite app_nil_r. repeat split; constructor.
  - cbn [for_range]. erewrite bind_run by apply plan_body_run. cbv beta.
    destruct (IH (i + 1)
                (acc ++ [mkPlanStep (i + 1) [Lit "Execute phase "; Fmt (VInt (i + 1))]
                           (5 + Z.of_nat (outcome w k (Z.to_nat (20 - 5 + 1))))])
                (S k) w) as (new & Hrun & Hlen & Hall & Hnum).
    eexists (_ :: new). split; [ | split; [ | split]].
    + rewrite Hrun, <- app_assoc. cbn [app].
      replace (n + S k)%nat with (S n + k)%nat by lia. reflexivity.
    + cbn [length]. rewrite Hlen. reflexivity.
    + constructor; [ | exact Hall]. cbn [estimated_time_min action step_number].
      split; [apply randint_range; lia | reflexivity].
    + cbn [map step_number]. rewrite Hnum.
      replace (Z.of_nat (S n)) with (Z.succ (Z.of_nat n)) by lia.
      rewrite (seqZ_cons (i + 1) (Z.succ (Z.of_nat n))) by lia.
      rewrite Z.pred_succ. reflexivity.
Qed.


(** The complete account of one call of [plan_execution_path]: the plan,
    and the number of outcomes consumed, one for the count and one for
    each step. *)
Lemma plan_execution_path_steps (self : Agent) (task_details : gmap string pyval)
    (w : world) :
  exists plan,
    plan_execution_path self task_details w
    = (inr plan, advance (S (length (steps plan))) w)
    /\ 3 <= total_steps plan <= 7
    /\ Z.of_nat (length (steps plan)) = total_steps plan
    /\ Forall (fun s => 5 <= estimated_time_min s <= 20
                        /\ action s = [Lit "Execute phase "; Fmt (VInt (step_number s))])
         (steps plan)
    /\ map step_number (steps plan) = seqZ 1 (total_steps plan)
    /\ estimated_duration_min plan
       = foldr Z.add 0 (map estimated_time_min (steps plan))
    /\ start plan = default (VStr "Base") (task_details !! "start_location")
    /\ finish plan = default (VStr "Target") (task_details !! "end_location")
    /\ contingency_plan plan = "Return to base if issues arise".
Proof.
  unfold plan_execution_path.
  set (num_steps := 3 + Z.of_nat (outcome w 0 (Z.to_nat (7 - 3 + 1)))).
  assert (Hnum : 3 <= num_steps <= 7) by (apply randint_range; lia).
  destruct (plan_loop_labels (Z.to_nat num_steps) 0 [] 1 w)
    as (new & Hrun & Hlen & Hall & Hnums).
  cbn [app] in Hrun.
  exists (mkPlan (default (VStr "Base") (task_details !! "start_location"))
            (default (VStr "Target") (task_details !! "end_location"))
            num_steps (sum_times new) new "Return to base if issues arise").
  cbn [total_steps steps estimated_duration_min start finish contingency_plan].
  split; [ | repeat split].
  - cbv zeta.
    erewrite bind_run by apply randint_run_first.
    cbv beta. fold num_steps.
    erewrite bind_run by exact Hrun.
    cbv beta. unfold ret. rewrite Hlen.
    replace (Z.to_nat num_steps + 1)%nat with (S (Z.to_nat num_steps)) by lia.
    reflexivity.
  - lia.
  - lia.
  - lia.
  - exact Hall.
  - rewrite Hnums. f_equal. lia.
  - apply sum_times_foldr.
Qed.


(** ** The environment check, continued *)

Lemma check_environment_safety_verdict (self : Agent) (location task_type : pyval)
    (w : world) :
  check_environment_safety self location task_type w
  = (inr (safe (reading_of task_type w), reason_of task_type w), advance 9 w).
Proof.
  unfold check_environment_safety, reason_of.
  erewrite bind_run by apply check_conditions_run. cbv beta.
  unfold reading_of.
  destruct (py_eq_str task_type "delivery_route").
  - destruct (safe (route_reading w)) eqn:Hsafe; cbn [negb]; [reflexivity | ].
    change (cond_type (route_reading w)) with "traffic".
    cbn [String.eqb Ascii.eqb Bool.eqb].
    erewrite bind_run; [reflexivity | ].
    unfold lift, dict_index, route_reading. cbn [details].
    rewrite map3_lookup. reflexivity.
  - destruct (py_eq_str task_type "production_job"); [reflexivity | ].
    destruct (safe (drone_reading w)) eqn:Hsafe; cbn [negb]; [reflexivity | ].
    change (cond_type (drone_reading w)) with "weather".
    cbn [String.eqb Ascii.eqb Bool.eqb].
    erewrite bind_run; [reflexivity | ].
    unfold lift, dict_index, drone_reading. cbn [details].
    rewrite map3_lookup. reflexivity.
Qed.

Lemma reason_of_safe (task_type : pyval) (w : world) :
  safe (reading_of task_type w) = true <-> reason_of task_type w = favorable.
Proof.
  unfold reason_of. destruct (safe (reading_of task_type w)).
  - split; reflexivity.
  - split; [intros H; discriminate H | ].
    destruct (py_eq_str task_type "delivery_route"); intros H; discriminate H.
Qed.

(** ** Orchestration, continued *)

(** The entry that the selection records tells its outcome. *)
Lemma select_optimal_resource_entry (self : Agent) (resource_type : pyval)
    (min_capacity : Z) (w : world) :
  exists entry,
    select_optimal_resource self resource_type min_capacity w
    = (inr (selection resource_type min_capacity),
       logged w (decision_log self) entry)
    /\ step entry = "Resource Selection"
    /\ timestamp entry = clock w (ticks w)
    /\ decision entry
       = match selection resource_type min_capacity with
         | None => [Lit "FAILED"]
         | Some best => [Lit "Selected "; Fmt (VStr (Resource.id best))]
         end.
Proof.
  unfold select_optimal_resource, selection.
  destruct (available_resources _ _) as [ | x xs].
  - erewrite bind_run by apply log_decision_run. eexists. repeat split.
  - cbv zeta. erewrite bind_run by apply log_decision_run.
    eexists. repeat split.
Qed.



(** The four ways in which one evaluation ends. *)
Lemma make_autonomous_decision_cases (self : Agent) (task_request : gmap string pyval)
    (w : world) :
  let l := decision_log self in
  let result := make_autonomous_decision self task_request w in
  let reason := reason_of (task_type_of task_request) w in
  if safe (reading_of (task_type_of task_request) w) then
    let w1 := logged (advance 9 w) l (environment_entry w true favorable) in
    match requirement_of task_request with
    | inl e => result = (inl e, w1)
    | inr required_capacity =>
        let w2 := logged w1 l (requirement_entry w1 task_request required_capacity) in
        exists e3,
          step e3 = "Resource Selection"
          /\ timestamp e3 = clock w (2 + ticks w)%nat
          /\ match selection (resource_type_of task_request) required_capacity with
             | None =>
                 decision e3 = [Lit "FAILED"]
                 /\ result
                    = (inr (Rejected
                              [Lit "No "; Fmt (resource_type_of task_request);
                               Lit " available with required capacity (";
                               Fmt (VInt required_capacity); Lit "%)"] l),
                       logged w2 l e3)
             | Some chosen =>
                 decision e3 = [Lit "Selected "; Fmt (VStr (Resource.id chosen))]
                 /\ exists plan e4,
                      plan_execution_path self task_request (logged w2 l e3)
                      = (inr plan, advance (S (length (steps plan))) (logged w2 l e3))
                      /\ step e4 = "Final Decision"
                      /\ timestamp e4 = clock w (3 + ticks w)%nat
                      /\ decision e4 = [Lit "TASK APPROVED"]
                      /\ result
                         = (inr (Approved (Resource.id chosen)
                                   [Fmt (VInt (Resource.capacity chosen));
                                    Lit "% (required: ";
                                    Fmt (VInt required_capacity); Lit "%)"]
                                   plan favorable
                                   [Fmt (VInt (estimated_duration_min plan));
                                    Lit " minutes"] l),
                            logged (advance (S (length (steps plan))) (logged w2 l e3))
                              l e4)
             end
    end
  else
    result = (inr (Rejected reason l),
              logged (advance 9 w) l (environment_entry w false reason)).
Proof.
  intros l result reason.
  pose proof (check_environment_safety_verdict self
                (default (VStr "Unknown") (task_request !! "location"))
                (task_type_of task_request) w) as Hsafe.
  pose proof (reason_of_safe (task_type_of task_request) w) as Hfav.
  fold reason in Hsafe, Hfav.
  unfold result, make_autonomous_decision. cbv zeta.
  fold (task_type_of task_request).
  erewrite bind_run by exact Hsafe. cbv beta. cbn [fst snd].
  destruct (safe (reading_of (task_type_of task_request) w)) eqn:Happ; cbn [negb].
  - rewrite (proj1 Hfav eq_refl).
    erewrite bind_run by apply log_decision_run. cbv beta.
    fold l. change (mkLogEntry _ "Environment Analysis" _ favorable)
      with (environment_entry w true favorable).
    set (w1 := logged (advance 9 w) l _).
    fold (requirement_of task_request).
    destruct (requirement_of task_request) as [err | required_capacity].
    + erewrite bind_raise by apply lift_run. reflexivity.
    + erewrite bind_run by apply lift_run. cbv beta.
      erewrite bind_run by apply log_decision_run. cbv beta.
      fold l.
      change (mkLogEntry (clock w1 (ticks w1)) "Requirement Analysis" _ _)
        with (requirement_entry w1 task_request required_capacity).
      set (w2 := logged w1 l _).
      fold (resource_type_of task_request).
      destruct (select_optimal_resource_entry self (resource_type_of task_request)
                  required_capacity w2) as (e3 & Hsel & Hstep & Hstamp & Hdec).
      erewrite bind_run by exact Hsel. cbv beta. fold l.
      exists e3. split; [exact Hstep | ]. split; [exact Hstamp | ].
      destruct (selection _ required_capacity) as [chosen | ].
      * split; [exact Hdec | ].
        destruct (plan_execution_path_steps self task_request (logged w2 l e3))
          as (plan & Hplan & _).
        exists plan. eexists (mkLogEntry _ "Final Decision" [Lit "TASK APPROVED"] _).
        split; [exact Hplan | ].
        erewrite bind_run by exact Hplan. cbv beta.
        erewrite bind_run by apply log_decision_run. cbv beta.
        unfold ret. fold l. split; [ | split; [ | split]]; reflexivity.
      * split; [exact Hdec | reflexivity].
  - erewrite bind_run by apply log_decision_run. reflexivity.
Qed.







(** ** Resource selection, continued *)

Lemma py_max_by_pick {A : Type} (key : A -> Z) (x : A) (xs : list A) :
  py_max_by key x xs = fold_left (pick key) xs x.
Proof. reflexivity. Qed.

Lemma fold_pick_ge {A : Type} (key : A -> Z) (l : list A) (best : A) :
  key best <= key (fold_left (pick key) l best).
Proof.
  revert best. induction l as [ | y l IH]; intros best; cbn [fold_left]; [lia | ].
  etransitivity; [ | apply IH]. unfold pick.
  destruct (Z.ltb_spec (key best) (key y)); lia.
Qed.

(** Elements that do not exceed the current best can be dropped. *)
Lemma fold_pick_filter {A : Type} (key : A -> Z) (P : A -> bool) (l : list A)
    (best : A) :
  (forall y, y ∈ l -> P y = false -> key y <= key best) ->
  fold_left (pick key) (List.filter P l) best = fold_left (pick key) l best.
Proof.
  revert best. induction l as [ | y l IH]; intros best Hlow; [reflexivity | ].
  cbn [List.filter fold_left].
  assert (Hstep : key best <= key (pick key best y)).
  { unfold pick. destruct (Z.ltb_spec (key best) (key y)); lia. }
  destruct (P y) eqn:Py.
  - cbn [fold_left]. apply IH. intros y' Hin HP.
    pose proof (Hlow y' (list_elem_of_further _ _ _ Hin) HP). lia.
  - assert (Hy : key y <= key best) by (apply Hlow; [apply list_elem_of_here | exact Py]).
    replace (pick key best y) with best
      by (unfold pick; destruct (Z.ltb_spec (key best) (key y)); [lia | reflexivity]).
    apply IH. intros y' Hin HP. apply Hlow; [apply list_elem_of_further, Hin | exact HP].
Qed.

(** A start that the result exceeds can be replaced by a smaller one. *)
Lemma fold_pick_start {A : Type} (key : A -> Z) (l : list A) :
  forall c a : A,
    key c <= key a -> key a < key (fold_left (pick key) l c) ->
    fold_left (pick key) l a = fold_left (pick key) l c.
Proof.
  induction l as [ | d l IH]; intros c a Hca Hlt; cbn [fold_left] in *; [lia | ].
  unfold pick at 2 4. unfold pick at 2 in Hlt.
  destruct (Z.ltb_spec (key a) (key d)) as [Had | Hda].
  - destruct (Z.ltb_spec (key c) (key d)); [reflexivity | lia].
  - destruct (Z.ltb_spec (key c) (key d)); apply IH; try assumption; lia.
Qed.

(** Lowering the threshold of the filter to nothing keeps the first
    maximum. *)
Lemma first_max_unfiltered {A : Type} (key : A -> Z) (m : Z) (l : list A) (x : A)
    (xs : list A) :
  List.filter (fun r => m <=? key r) l = x :: xs ->
  exists y ys, l = y :: ys /\ py_max_by key y ys = py_max_by key x xs.
Proof.
  revert x xs. induction l as [ | a l IH]; intros x xs Hf; [discriminate Hf | ].
  cbn [List.filter] in Hf. exists a, l. split; [reflexivity | ].
  rewrite !py_max_by_pick.
  destruct (Z.leb_spec m (key a)) as [Hma | Ham].
  - injection Hf as <- <-. symmetry. apply fold_pick_filter.
    intros y _ Hy. apply Z.leb_gt in Hy. lia.
  - destruct (IH x xs Hf) as (y & ys & -> & Heq).
    rewrite !py_max_by_pick in Heq.
    rewrite <- Heq. cbn [fold_left].
    assert (Hx : m <= key x).
    { assert (Hin : In x (List.filter (fun r => m <=? key r) (y :: ys)))
        by (rewrite Hf; left; reflexivity).
      apply filter_In in Hin. apply Z.leb_le. tauto. }
    assert (Hb : key a < key (fold_left (pick key) ys y)).
    { rewrite Heq. pose proof (fold_pick_ge key xs x). lia. }
    unfold pick at 2.
    destruct (Z.ltb_spec (key a) (key y)); [reflexivity | ].
    apply fold_pick_start; assumption.
Qed.

Lemma available_resources_filter (resources : list Resource.t) (m : Z) :
  available_resources resources m
  = List.filter (fun r => m <=? Resource.capacity r)
      (List.filter (fun r => String.eqb (Resource.status r) "available") resources).
Proof.
  unfold available_resources.
  induction resources as [ | r l IH]; [reflexivity | ].
  cbn [List.filter]. destruct (String.eqb (Resource.status r) "available");
    cbn [andb List.filter]; rewrite IH; reflexivity.
Qed.

(** X4. The resource that the selection picks does not depend on the
    required capacity: for every table, when the selection picks an
    entry for one requirement, it picks the same entry for every other
    requirement that this entry covers.  The agent thus always assigns
    the first available entry of highest capacity, never a closer fit. *)
Theorem best_resource_independent_of_threshold
    (resources : list Resource.t) (m m' : Z) (x : Resource.t) (xs : list Resource.t) :
  available_resources resources m = x :: xs ->
  m' <= Resource.capacity (py_max_by Resource.capacity x xs) ->
  exists y ys,
    available_resources resources m' = y :: ys
    /\ py_max_by Resource.capacity y ys = py_max_by Resource.capacity x xs.
Proof.
  intros Hm Hle. rewrite available_resources_filter in Hm.
  rewrite available_resources_filter.
  set (all := List.filter _ resources) in *.
  destruct (first_max_unfiltered Resource.capacity m all x xs Hm)
    as (a & l & Hall & Hbest).
  set (best := py_max_by Resource.capacity x xs) in *.
  assert (Hin : In best (List.filter (fun r => m' <=? Resource.capacity r) all)).
  { apply filter_In. split; [ | apply Z.leb_le; exact Hle].
    destruct (py_max_by_first_max Resource.capacity a l) as (b & c & Heq & _).
    rewrite Hall, Heq, Hbest. apply in_or_app. right. left. reflexivity. }
  destruct (List.filter (fun r => m' <=? Resource.capacity r) all) as [ | y ys] eqn:Hf;
    [destruct Hin | ].
  exists y, ys. split; [reflexivity | ].
  destruct (first_max_unfiltered Resource.capacity m' all y ys Hf)
    as (a' & l' & Hall' & Hbest').
  rewrite Hall in Hall'. injection Hall' as <- <-.
  rewrite <- Hbest'. exact Hbest.
Qed.

Lemma best_resource_independent_of_threshold_witness :
  exists y ys,
    available_resources (get_available_resources (VStr "drone")) 96 = y :: ys
    /\ py_max_by Resource.capacity y ys = resource_004.
Proof.
  apply (best_resource_independent_of_threshold
           (get_available_resources (VStr "drone")) 58 96
           (Resource.mk "RESOURCE-001" 95 "available" "Base-A") [resource_004]).
  - reflexivity.
  - vm_compute. discriminate.
Defined.


(** ** The environment service, continued *)

Lemma nth_elem_of {A : Type} (k : nat) (l : list A) (d : A) :
  (k < length l)%nat -> nth k l d ∈ l.
Proof. intros H. apply list_elem_of_In, nth_In, H. Qed.

(** X6. The environment service never raises and consumes nine outcomes
    of the random source whatever the task type, since the three readings
    are built before the lookup.  The safety flag of the reading it
    returns depends on one outcome only: the fifth one for a delivery
    route (unsafe for one value in three), the first one for every type
    but the delivery route and the production job (unsafe for one value
    in four), none for a production job.  The reading is a weather, a
    traffic or a facility reading whose measurements lie in the ranges of
    the source: wind 5 to 35, visibility 5 to 15, delay 0 to 45,
    temperature 20 to 25. *)
Theorem check_conditions_reading (location task_type : pyval) (w : world) :
  exists c,
    check_conditions location task_type w = (inr c, advance 9 w)
    /\ safe c
       = (if py_eq_str task_type "delivery_route" then
            negb (Nat.eqb (draws w (4 + cursor w) mod 3) 2)
          else if py_eq_str task_type "production_job" then true
          else negb (Nat.eqb (draws w (cursor w) mod 4) 3))
    /\ ((cond_type c = "weather"
         /\ exists condition wind_speed visibility,
              details c = {[ "condition" := VStr condition;
                             "wind_speed" := VInt wind_speed;
                             "visibility" := VInt visibility ]}
              /\ condition ∈ ["Clear"; "Cloudy"; "Windy"]
              /\ 5 <= wind_speed <= 35 /\ 5 <= visibility <= 15)
        \/ (cond_type c = "traffic"
            /\ exists traffic_level estimated_delay_min road_status,
                 details c = {[ "traffic_level" := VStr traffic_level;
                                "estimated_delay_min" := VInt estimated_delay_min;
                                "road_status" := VStr road_status ]}
                 /\ traffic_level ∈ ["Low"; "Moderate"; "Heavy"]
                 /\ 0 <= estimated_delay_min <= 45
                 /\ road_status ∈ ["Clear"; "Construction"])
        \/ (cond_type c = "facility"
            /\ exists temperature,
                 details c = {[ "machine_status" := VStr "Operational";
                                "temperature" := VInt temperature;
                                "power_status" := VStr "Stable" ]}
                 /\ 20 <= temperature <= 25)).
Proof.
  exists (reading_of task_type w). split; [apply check_conditions_run | ].
  unfold reading_of.
  destruct (py_eq_str task_type "delivery_route");
    [ | destruct (py_eq_str task_type "production_job")].
  - split.
    + unfold route_reading, outcome. cbn [safe].
      pose proof (Nat.mod_upper_bound (draws w (4 + cursor w)) 3 ltac:(lia)) as Hb.
      revert Hb.
      destruct (draws w (4 + cursor w) mod 3)%nat as [ | [ | [ | n]]];
        intros Hb; try reflexivity; lia.
    + right. left. split; [reflexivity | ].
      eexists. eexists. eexists. split; [reflexivity | ].
      split; [apply nth_elem_of, outcome_below; simpl; lia | ].
      split; [exact (randint_range 0 45 w 6 ltac:(lia)) | ].
      apply nth_elem_of. apply (outcome_below w 7 2). lia.
  - split; [reflexivity | ].
    right. right. split; [reflexivity | ].
    eexists. split; [reflexivity | ]. exact (randint_range 20 25 w 8 ltac:(lia)).
  - split.
    + unfold drone_reading, outcome. cbn [safe]. change (0 + cursor w)%nat with (cursor w).
      pose proof (Nat.mod_upper_bound (draws w (cursor w)) 4 ltac:(lia)) as Hb.
      revert Hb.
      destruct (draws w (cursor w) mod 4)%nat as [ | [ | [ | [ | n]]]];
        intros Hb; try reflexivity; lia.
    + left. split; [reflexivity | ].
      eexists. eexists. eexists. split; [reflexivity | ].
      split; [apply nth_elem_of, outcome_below; simpl; lia | ].
      split; [exact (randint_range 5 35 w 2 ltac:(lia)) | ].
      exact (randint_range 5 15 w 3 ltac:(lia)).
Qed.



(** ** Execution planning, continued *)


(** ** Requirement calculation, continued *)






(** X8. On the time-based branch (no positive distance) the required
    capacity is non-decreasing in the duration and in the tier order: for
    positive durations [t1 <= t2] and tiers [c1 <= c2], whenever the
    calculation returns [r2] on [(t2, c2)] it returns some [r1] with
    [0 <= r1 <= r2] on [(t1, c1)]. *)
Theorem requirement_monotone_in_duration
    (distance t1 t2 : pynum) (c1 c2 : pyval) (r2 : Z) :
  num_gt0 distance = false ->
  valid_num t1 -> valid_num t2 ->
  num_gt0 t1 = true ->
  units t1 <= units t2 ->
  tier_le c1 c2 ->
  calculate_resource_requirement (VNum distance) c2 (VNum t2) = inr r2 ->
  exists r1,
    calculate_resource_requirement (VNum distance) c1 (VNum t1) = inr r1
    /\ 0 <= r1 <= r2.
Proof.
  intros Gd V1 V2 Hgt Hle Ht Hr2.
  pose proof (proj1 (num_gt0_units t1 V1) Hgt) as Hpos1.
  assert (Hgt2 : num_gt0 t2 = true) by (apply (num_gt0_units t2 V2); lia).
  rewrite calculate_by_duration in Hr2 by assumption.
  rewrite calculate_by_duration by assumption.
  exact (chain_monotone f0_8 (tier_multiplier c1) (tier_multiplier c2) t1 t2 r2
           pos_finite_f0_8 (tier_multiplier_pos_finite c1)
           (tier_multiplier_pos_finite c2) (tier_multiplier_mono c1 c2 Ht)
           V1 V2 Hpos1 Hle Hr2).
Qed.

Lemma requirement_monotone_in_duration_witness :
  calculate_resource_requirement (VInt 0) (VStr "high") (VInt 60) = inr 92
  /\ exists r1,
       calculate_resource_requirement (VInt 0) (VStr "low") (VInt 45) = inr r1
       /\ 0 <= r1 <= 92.
Proof.
  split; [vm_compute; reflexivity | ].
  apply (requirement_monotone_in_duration (PyInt 0) (PyInt 45) (PyInt 60)
           (VStr "low") (VStr "high") 92).
  - reflexivity.
  - exact I.
  - exact I.
  - reflexivity.
  - apply Z.mul_le_mono_nonneg_r; [apply Z.pow_nonneg | ]; lia.
  - constructor.
  - vm_compute. reflexivity.
Defined.

(** The selection on the three tables. *)
Lemma selection_tables (resource_type : pyval) (m : Z) :
  selection resource_type m
  = if py_eq_str resource_type "drone" then
      if m <=? 100 then Some resource_004 else None
    else if py_eq_str resource_type "vehicle" then
      if m <=? 90
      then Some (Resource.mk "VEHICLE-003" 90 "available" "Warehouse-1")
      else None
    else
      if m <=? 95
      then Some (Resource.mk "UNIT-002" 95 "available" "Station-B")
      else None.
Proof.
  unfold selection, get_available_resources, available_resources.
  destruct (py_eq_str resource_type "drone");
    [ | destruct (py_eq_str resource_type "vehicle")];
    cbn [List.filter Resource.status Resource.capacity String.eqb Ascii.eqb
           Bool.eqb andb].
  - destruct (Z.leb_spec m 95), (Z.leb_spec m 45), (Z.leb_spec m 100);
      try lia; reflexivity.
  - destruct (Z.leb_spec m 80), (Z.leb_spec m 60), (Z.leb_spec m 90);
      try lia; reflexivity.
  - destruct (Z.leb_spec m 75), (Z.leb_spec m 95); try lia; reflexivity.
Qed.

Lemma selection_top (resource_type : pyval) (m : Z) :
  selection resource_type m
  = if m <=? table_capacity resource_type then Some (top_resource resource_type)
    else None.
Proof.
  rewrite selection_tables. unfold table_capacity, top_resource.
  destruct (py_eq_str resource_type "drone"); [reflexivity | ].
  destruct (py_eq_str resource_type "vehicle"); reflexivity.
Qed.

(** The requirements that a capacity covers: those of the positive
    integer distances up to the limit of the tier. *)
Lemma distance_threshold (d cap limit : Z) (tier : string) (duration : pyval) :
  In (cap, tier, limit) distance_limits ->
  0 < d ->
  (exists required_capacity,
     calculate_resource_requirement (VInt d) (VStr tier) duration
     = inr required_capacity
     /\ required_capacity <= cap)
  <-> d <= limit.
Proof.
  intros Hin Hd.
  pose proof (pow2_pos 1074 ltac:(lia)) as Hp.
  assert (Hgt : forall z, 0 < z -> num_gt0 (PyInt z) = true)
    by (intros z Hz; apply Z.ltb_lt; exact Hz).
  assert (Hedge :
    0 < limit
    /\ (exists rA, (do g <- to_float (PyInt limit);
                    py_int (scaled_total f1_5 g (tier_multiplier (VStr tier)))) = inr rA
                   /\ rA <= cap)
    /\ (exists rB, (do g <- to_float (PyInt (limit + 1));
                    py_int (scaled_total f1_5 g (tier_multiplier (VStr tier)))) = inr rB
                   /\ cap < rB)).
  { simpl in Hin.
    repeat (destruct Hin as [E | Hin];
            [injection E as <- <- <-;
             split; [reflexivity | ];
             split; eexists; (split; [vm_compute; reflexivity | vm_compute; congruence])
            | ]).
    destruct Hin. }
  destruct Hedge as (Hlim & (rA & HrA & HA) & (rB & HrB & HB)).
  unfold VInt. rewrite calculate_by_distance by (apply Hgt; exact Hd).
  split.
  - intros (rc & Hcalc & Hcap).
    destruct (Z.le_gt_cases d limit) as [Hle | Hlt]; [exact Hle | exfalso].
    destruct (chain_monotone f1_5 (tier_multiplier (VStr tier))
                (tier_multiplier (VStr tier)) (PyInt (limit + 1)) (PyInt d) rc
                pos_finite_f1_5 (tier_multiplier_pos_finite _)
                (tier_multiplier_pos_finite _) (Z.le_refl _) I I)
      as (r1 & Hr1 & Hb); [cbn [units]; nia | cbn [units]; nia | exact Hcalc | ].
    rewrite HrB in Hr1. injection Hr1 as <-. lia.
  - intros Hle.
    destruct (chain_monotone f1_5 (tier_multiplier (VStr tier))
                (tier_multiplier (VStr tier)) (PyInt d) (PyInt limit) rA
                pos_finite_f1_5 (tier_multiplier_pos_finite _)
                (tier_multiplier_pos_finite _) (Z.le_refl _) I I)
      as (r1 & Hr1 & Hb); [cbn [units]; nia | cbn [units]; nia | exact HrA | ].
    exists r1. split; [exact Hr1 | lia].
Qed.

(** ** Agents and their logs *)

Lemma init_run (industry : string) (w : world) :
  init industry w = (inr (mkAgent industry (fresh (dom (heap w)))), allocated w).
Proof. reflexivity. Qed.

Lemma fresh_unallocated (w : world) : heap w !! fresh (dom (heap w)) = None.
Proof. apply not_elem_of_dom, is_fresh. Qed.

Lemma log_at_allocated (w : world) : log_at (allocated w) (fresh (dom (heap w))) = [].
Proof. unfold log_at, allocated. cbn [heap]. rewrite lookup_insert_eq. reflexivity. Qed.

Lemma heap_allocated_other (w : world) (l : nat) :
  l <> fresh (dom (heap w)) -> heap (allocated w) !! l = heap w !! l.
Proof. intros H. unfold allocated. cbn [heap]. apply lookup_insert_ne. congruence. Qed.

Lemma reading_of_allocated (task_type : pyval) (w : world) :
  reading_of task_type (allocated w) = reading_of task_type w.
Proof. reflexivity. Qed.



(** One use case of the console entry point on a request whose
    requirement is computed and can be served. *)
Lemma run_use_case_known (industry : string) (task_request : gmap string pyval)
    (w : world) (required_capacity : Z) (chosen : Resource.t) :
  requirement_of task_request = inr required_capacity ->
  selection (resource_type_of task_request) required_capacity = Some chosen ->
  let l := fresh (dom (heap w)) in
  exists d w',
    run_use_case industry task_request w = (inr d, w')
    /\ returned_log d = l
    /\ task_approved d = safe (reading_of (task_type_of task_request) w)
    /\ resource_assigned_of d
       = (if task_approved d then Some (Resource.id chosen) else None)
    /\ map step (log_at w' l)
       = (if task_approved d
          then ["Environment Analysis"; "Requirement Analysis";
                "Resource Selection"; "Final Decision"]
          else ["Environment Analysis"])
    /\ (forall l', l' <> l -> heap w' !! l' = heap w !! l')
    /\ is_Some (heap w' !! l).
Proof.
  intros Hreq Hsel l.
  unfold run_use_case. erewrite bind_run by apply init_run.
  fold l. set (self := mkAgent industry l).
  pose proof (make_autonomous_decision_cases self task_request (allocated w)) as H.
  cbv zeta in H. rewrite reading_of_allocated in H. rewrite Hreq in H.
  change (decision_log self) with l in H.
  assert (Hempty : log_at (allocated w) l = []) by exact (log_at_allocated w).
  assert (Hlook : forall v e, heap (logged v l e) !! l = Some (log_at v l ++ [e])).
  { intros v e. unfold logged. cbn [heap]. apply lookup_insert_eq. }
  destruct (safe (reading_of (task_type_of task_request) w)).
  - destruct H as (e3 & Hstep3 & _ & H). rewrite Hsel in H.
    destruct H as (_ & plan & e4 & _ & Hstep4 & _ & _ & H).
    eexists. eexists. split; [exact H | ].
    cbn [returned_log task_approved resource_assigned_of].
    split; [reflexivity | split; [reflexivity | split; [reflexivity | ]]].
    split; [ | split].
    + rewrite log_at_logged, log_at_advance, !log_at_logged, log_at_advance, Hempty.
      cbn [app map step environment_entry requirement_entry].
      rewrite Hstep3, Hstep4. reflexivity.
    + intros l' Hl'. rewrite heap_logged_other by exact Hl'.
      change (heap (advance _ ?v)) with (heap v).
      rewrite !heap_logged_other by exact Hl'.
      change (heap (advance _ ?v)) with (heap v).
      apply heap_allocated_other. exact Hl'.
    + rewrite Hlook. eexists. reflexivity.
  - eexists. eexists. split; [exact H | ].
    cbn [returned_log task_approved resource_assigned_of].
    split; [reflexivity | split; [reflexivity | split; [reflexivity | ]]].
    split; [ | split].
    + rewrite log_at_logged, log_at_advance, Hempty. reflexivity.
    + intros l' Hl'. rewrite heap_logged_other by exact Hl'.
      change (heap (advance _ ?v)) with (heap v).
      apply heap_allocated_other. exact Hl'.
    + rewrite Hlook. eexists. reflexivity.
Qed.

(** X13. The console entry point never raises.  Its three use cases run
    in sequence on three agents with three distinct logs.  The production
    job is always approved, with the unit of capacity 95; the drone
    mission is approved exactly when its weather reading is safe, with
    the drone of capacity 100; the delivery route is approved exactly
    when its traffic reading, taken after the first use case, is safe,
    with the vehicle of capacity 90.  At the end the log of an approved
    use case holds four entries and the log of a rejected one holds
    one. *)
Theorem demo_multiple_industries_runs (w : world) :
  exists d1 d2 d3 w1 w2 w3,
    run_use_case "drone_operations" drone_task w = (inr d1, w1)
    /\ run_use_case "logistics" delivery_task w1 = (inr d2, w2)
    /\ run_use_case "manufacturing" production_task w2 = (inr d3, w3)
    /\ demo_multiple_industries w = (inr (d1, d2, d3), w3)
    /\ task_approved d1 = safe (drone_reading w)
    /\ task_approved d2 = safe (route_reading w1)
    /\ task_approved d3 = true
    /\ resource_assigned_of d1
       = (if task_approved d1 then Some "RESOURCE-004" else None)
    /\ resource_assigned_of d2
       = (if task_approved d2 then Some "VEHICLE-003" else None)
    /\ resource_assigned_of d3 = Some "UNIT-002"
    /\ NoDup [returned_log d1; returned_log d2; returned_log d3]
    /\ Forall (fun d => length (log_at w3 (returned_log d))
                        = if task_approved d then 4%nat else 1%nat)
         [d1; d2; d3].
Proof.
  destruct (run_use_case_known "drone_operations" drone_task w 58 resource_004)
    as (d1 & w1 & Hrun1 & Hlog1 & Happ1 & Hres1 & Hsteps1 & Hother1 & Hsome1);
    [vm_compute; reflexivity | reflexivity | ].
  destruct (run_use_case_known "logistics" delivery_task w1 43
              (Resource.mk "VEHICLE-003" 90 "available" "Warehouse-1"))
    as (d2 & w2 & Hrun2 & Hlog2 & Happ2 & Hres2 & Hsteps2 & Hother2 & Hsome2);
    [vm_compute; reflexivity | reflexivity | ].
  destruct (run_use_case_known "manufacturing" production_task w2 43
              (Resource.mk "UNIT-002" 95 "available" "Station-B"))
    as (d3 & w3 & Hrun3 & Hlog3 & Happ3 & Hres3 & Hsteps3 & Hother3 & Hsome3);
    [vm_compute; reflexivity | reflexivity | ].
  set (l1 := fresh (dom (heap w))) in *.
  set (l2 := fresh (dom (heap w1))) in *.
  set (l3 := fresh (dom (heap w2))) in *.
  assert (Hf2 : heap w1 !! l2 = None) by apply fresh_unallocated.
  assert (Hf3 : heap w2 !! l3 = None) by apply fresh_unallocated.
  assert (H12 : l1 <> l2).
  { intros E. rewrite <- E in Hf2. rewrite Hf2 in Hsome1. destruct Hsome1 as [x Hx].
    discriminate Hx. }
  assert (H23 : l2 <> l3).
  { intros E. rewrite <- E in Hf3. rewrite Hf3 in Hsome2. destruct Hsome2 as [x Hx].
    discriminate Hx. }
  assert (H13 : l1 <> l3).
  { intros E. rewrite <- E in Hf3. rewrite (Hother2 l1 H12) in Hf3.
    rewrite Hf3 in Hsome1. destruct Hsome1 as [x Hx]. discriminate Hx. }
  change (task_type_of production_task) with (VStr "production_job") in Happ3.
  change (safe (reading_of (VStr "production_job") w2)) with true in Happ3.
  rewrite Happ3 in Hres3.
  exists d1, d2, d3, w1, w2, w3.
  split; [exact Hrun1 | split; [exact Hrun2 | split; [exact Hrun3 | ]]].
  split.
  { unfold demo_multiple_industries.
    erewrite bind_run by exact Hrun1. cbv beta.
    erewrite bind_run by exact Hrun2. cbv beta.
    erewrite bind_run by exact Hrun3. reflexivity. }
  split; [exact Happ1 | split; [exact Happ2 | split; [exact Happ3 | ]]].
  split; [exact Hres1 | split; [exact Hres2 | split; [exact Hres3 | ]]].
  rewrite Hlog1, Hlog2, Hlog3. split.
  - repeat constructor; rewrite ?elem_of_cons, ?elem_of_nil; intuition congruence.
  - assert (Hlen : forall (d : Decision) (v : world) (l : nat),
              map step (log_at v l)
              = (if task_approved d
                 then ["Environment Analysis"; "Requirement Analysis";
                       "Resource Selection"; "Final Decision"]
                 else ["Environment Analysis"]) ->
              length (log_at v l) = if task_approved d then 4%nat else 1%nat).
    { intros d v l Hm. rewrite <- (length_map step), Hm.
      destruct (task_approved d); reflexivity. }
    constructor; [ | constructor; [ | constructor; [ | constructor]]].
    + cbv beta. rewrite Hlog1. apply Hlen. unfold log_at.
      rewrite (Hother3 l1 H13), (Hother2 l1 H12). exact Hsteps1.
    + cbv beta. rewrite Hlog2. apply Hlen. unfold log_at.
      rewrite (Hother3 l2 H23). exact Hsteps2.
    + cbv beta. rewrite Hlog3. apply Hlen. exact Hsteps3.
Qed.

(** ** The browser variant, continued *)

Lemma nonneg_float_valid (f : spec_float) :
  nonneg_float f -> valid f = true /\ f <> S754_nan.
Proof.
  destruct f as [s | s | | s m e]; cbn [nonneg_float];
    try (intros _; split; [reflexivity | discriminate]).
  - intros [].
  - intros [_ Hv]. split; [exact Hv | discriminate].
Qed.

Lemma rne_div_exact (N D : Z) : 0 < D -> rne_div (N * D) D = N.
Proof.
  intros HD. unfold rne_div. rewrite Z.mod_mul, Z.div_mul by lia.
  destruct (Z.compare_spec (2 * 0) D); try reflexivity; lia.
Qed.

(** The number [k / 2^53] is represented exactly. *)
Lemma binary_normalize_unit (k : Z) :
  0 <= k < 2 ^ 53 ->
  let f := binary_normalize prec emax k (-53) false in
  fval f = k * 2 ^ 1021 /\ nonneg_float f.
Proof.
  intros Hk. destruct k as [ | p | p]; try lia.
  { split; [reflexivity | exact I]. }
  cbv zeta. unfold binary_normalize, binary_round.
  rewrite fexp_fexp64.
  change (Z.pos (digits2_pos p)) with (Zdigits2 (Z.pos p)).
  rewrite Zdigits2_log2 by lia.
  assert (Hlog : Z.log2 (Z.pos p) < 53) by (apply Z.log2_lt_pow2; lia).
  pose proof (Z.log2_nonneg (Z.pos p)) as Hlog0.
  set (e' := fexp64 (Z.log2 (Z.pos p) + 1 + -53)).
  assert (He' : e' = Z.log2 (Z.pos p) - 105) by (unfold e', fexp64; lia).
  destruct (shl_align_spec p (-53) e') as [Hez Hmz].
  destruct (shl_align p (-53) e') as [mz ez]. cbn [fst snd] in Hez, Hmz.
  assert (Hezv : ez = e') by lia.
  assert (Hlogz : Z.log2 (Z.pos mz) = Z.log2 (Z.pos p) + (-53 - ez)).
  { rewrite Hmz, Hez, Z.log2_mul_pow2 by lia. lia. }
  assert (Hpre : ez <= fexp64 (Z.log2 (Z.pos mz) + 1 + ez)).
  { rewrite Hlogz. unfold fexp64. lia. }
  destruct (binary_round_aux_fval (Z.pos mz) ez 1074 ltac:(lia) Hpre ltac:(lia)
              ltac:(lia)) as [Hval Hnn].
  split; [ | exact Hnn].
  rewrite Hval. replace (1074 - 1074) with 0 by lia.
  assert (HV : Z.pos mz * 2 ^ (ez + 1074) = Z.pos p * 2 ^ 1021).
  { rewrite Hmz. rewrite <- Z.mul_assoc, <- Z.pow_add_r by lia. f_equal. f_equal. lia. }
  rewrite HV.
  assert (Hexact : Rnd 0 (Z.pos p * 2 ^ 1021) = Z.pos p * 2 ^ 1021).
  { unfold Rnd. rewrite Z.log2_mul_pow2 by lia.
    replace (Z.max (1021 + Z.log2 (Z.pos p) + 1 - 53) 0)
      with (Z.log2 (Z.pos p) + 969) by lia.
    rewrite Z.sub_0_r.
    replace (Z.pos p * 2 ^ 1021)
      with (Z.pos p * 2 ^ (52 - Z.log2 (Z.pos p)) * 2 ^ (Z.log2 (Z.pos p) + 969)) at 1
      by (rewrite <- Z.mul_assoc, <- Z.pow_add_r by lia; f_equal; f_equal; lia).
    rewrite rne_div_exact by (apply pow2_pos; lia).
    rewrite <- Z.mul_assoc, <- Z.pow_add_r by lia. f_equal. f_equal. lia. }
  rewrite Hexact. apply Z.min_l.
  unfold top. change (2 ^ 2098) with (2 ^ 53 * 2 ^ 2045).
  apply Z.mul_le_mono_nonneg; lia.
Qed.

Lemma random_float_run (w : world) :
  random_float w
  = (inr (binary_normalize prec emax (Z.of_nat (draws w (cursor w)) mod 2 ^ 53)
            (-53) false),
     advance 1 w).
Proof. reflexivity. Qed.

Lemma above_0_3 (k : Z) :
  0 <= k < 2 ^ 53 ->
  fltb f0_3 (binary_normalize prec emax k (-53) false) = (moderate_threshold <=? k).
Proof.
  intros Hk. destruct (binary_normalize_unit k Hk) as [Hval Hnn].
  destruct (nonneg_float_valid _ Hnn) as [Hv Hnan].
  unfold fltb, SFltb.
  rewrite (SFcompare_fval f0_3 _ eq_refl Hv ltac:(discriminate) Hnan).
  rewrite Hval.
  change (fval f0_3) with (5404319552844595 * 2 ^ 1020).
  replace (k * 2 ^ 1021) with (2 * k * 2 ^ 1020)
    by (change (2 ^ 1021) with (2 * 2 ^ 1020); ring).
  pose proof (pow2_pos 1020 ltac:(lia)) as Hp.
  unfold moderate_threshold.
  destruct (Z.leb_spec 2702159776422298 k) as [Hle | Hlt].
  - replace (5404319552844595 * 2 ^ 1020 ?= 2 * k * 2 ^ 1020) with Lt; [reflexivity | ].
    symmetry. apply Z.compare_lt_iff. nia.
  - destruct (Z.compare_spec (5404319552844595 * 2 ^ 1020) (2 * k * 2 ^ 1020));
      try reflexivity. nia.
Qed.

Lemma weather_ok_run (weather : string) (w : world) :
  weather_ok weather w
  = (if contains "Favorable" weather then (inr true, w)
     else if contains "Moderate" weather then
       (inr (moderate_threshold <=? Z.of_nat (draws w (cursor w)) mod 2 ^ 53),
        advance 1 w)
     else (inr false, w)).
Proof.
  assert (Hk : 0 <= Z.of_nat (draws w (cursor w)) mod 2 ^ 53 < 2 ^ 53)
    by (apply Z.mod_pos_bound; lia).
  unfold weather_ok.
  destruct (contains "Favorable" weather); [reflexivity | ].
  destruct (contains "Moderate" weather); [ | reflexivity].
  erewrite bind_run by apply random_float_run. cbv beta. unfold ret.
  rewrite above_0_3 by exact Hk. reflexivity.
Qed.

(** X14. The weather gate of the browser variant never raises and reads
    the random source at most once.  A label that contains "Favorable"
    passes without a draw; a label that contains neither "Favorable" nor
    "Moderate" fails without a draw; otherwise one outcome [k] of
    [[0, 2^53)] is drawn and the gate passes exactly when
    [k >= 2702159776422298], which is [k / 2^53 > 0.3] in binary64.  The
    test is case sensitive: the option "Unfavorable (Rain / High Wind)"
    does not contain "Favorable" and always fails. *)
Theorem weather_gate (weather : string) (w : world) :
  (exists ok w1, weather_ok weather w = (inr ok, w1)
                 /\ (w1 = w \/ w1 = advance 1 w))
  /\ (contains "Favorable" weather = true -> weather_ok weather w = (inr true, w))
  /\ (contains "Favorable" weather = false -> contains "Moderate" weather = true ->
      weather_ok weather w
      = (inr (moderate_threshold <=? Z.of_nat (draws w (cursor w)) mod 2 ^ 53),
         advance 1 w))
  /\ (contains "Favorable" weather = false -> contains "Moderate" weather = false ->
      weather_ok weather w = (inr false, w))
  /\ weather_ok "Favorable (Clear, Low Wind)" w = (inr true, w)
  /\ weather_ok "Moderate (Cloudy, Medium Wind)" w
     = (inr (moderate_threshold <=? Z.of_nat (draws w (cursor w)) mod 2 ^ 53),
        advance 1 w)
  /\ weather_ok "Unfavorable (Rain / High Wind)" w = (inr false, w).
Proof.
  split; [ | split; [ | split; [ | split; [ | split; [ | split]]]]].
  - rewrite weather_ok_run.
    destruct (contains "Favorable" weather); [eauto | ].
    destruct (contains "Moderate" weather); eauto.
  - intros H. rewrite weather_ok_run, H. reflexivity.
  - intros H1 H2. rewrite weather_ok_run, H1, H2. reflexivity.
  - intros H1 H2. rewrite weather_ok_run, H1, H2. reflexivity.
  - rewrite weather_ok_run. reflexivity.
  - rewrite weather_ok_run. reflexivity.
  - rewrite weather_ok_run. reflexivity.
Qed.

Lemma weather_gate_witness :
  weather_ok "Favorable" world0 = (inr true, world0)
  /\ weather_ok "Moderate" world0 = (inr false, advance 1 world0)
  /\ weather_ok "Stormy" world0 = (inr false, world0).
Proof.
  destruct (weather_gate "Favorable" world0) as (_ & H1 & _).
  destruct (weather_gate "Moderate" world0) as (_ & _ & H2 & _).
  destruct (weather_gate "Stormy" world0) as (_ & _ & _ & H3 & _).
  split; [apply H1; reflexivity | ].
  split; [apply H2; reflexivity | apply H3; reflexivity].
Defined.

(** *** The resource gate *)

Lemma ui_limits_option (label : string) (limit : Z) :
  In (label, limit) ui_limits -> exists tier, ui_option label tier.
Proof.
  simpl. intros [E | [E | [E | []]]]; injection E as <- <-; eexists; constructor.
Qed.

(** The total load is monotone in the distance. *)
Lemma ui_total_mono (label tier : string) (d1 d2 : Z) (t2 : spec_float) :
  ui_option label tier ->
  0 < d1 -> d1 <= d2 ->
  ui_total d2 label = inr t2 ->
  exists t1,
    ui_total d1 label = inr t1
    /\ fval t1 <= fval t2 /\ nonneg_float t1 /\ nonneg_float t2.
Proof.
  intros Hopt H1 H12 Ht2.
  pose proof (pow2_pos 1074 ltac:(lia)) as Hp.
  rewrite (ui_total_option d2 label tier Hopt), num_mul_float_to_float in Ht2.
  rewrite (ui_total_option d1 label tier Hopt), num_mul_float_to_float.
  destruct (to_float (PyInt d2)) as [e | g2] eqn:Hg2; [discriminate Ht2 | ].
  cbn [ebind] in Ht2. injection Ht2 as <-.
  assert (Hfin : fval g2 < top).
  { cbn [to_float] in Hg2.
    destruct (float_of_int_pos d2 ltac:(lia)) as [[Hlt E] | [_ E]];
      rewrite E in Hg2; [injection Hg2 as <-; exact Hlt | discriminate Hg2]. }
  destruct (to_float_mono (PyInt d1) (PyInt d2) g2 I I) as (g1 & Hg1 & N1 & N2 & Hg);
    [cbn [units]; nia | cbn [units]; nia | exact Hg2 | exact Hfin | ].
  rewrite Hg1. cbn [ebind].
  destruct (fmul_mono g1 g2 f1_5 f1_5 N1 N2 pos_finite_f1_5 pos_finite_f1_5 Hg
              (Z.le_refl _)) as (Ha & Na1 & Na2).
  destruct (fmul_mono _ _ (tier_multiplier (VStr tier)) (tier_multiplier (VStr tier))
              Na1 Na2 (tier_multiplier_pos_finite _) (tier_multiplier_pos_finite _)
              Ha (Z.le_refl _)) as (Hb & Nb1 & Nb2).
  eexists. split; [reflexivity | auto].
Qed.

Lemma fleb_95 (t : spec_float) :
  nonneg_float t -> (fleb t (of_Z 95) = true <-> fval t <= fval (of_Z 95)).
Proof.
  intros Hn. destruct (nonneg_float_valid t Hn) as [Hv Hnan].
  apply SFleb_fval; [exact Hv | reflexivity | exact Hnan | discriminate].
Qed.

(** The resource gate of the browser variant, on positive distances. *)
Lemma ui_threshold (d limit : Z) (label : string) :
  In (label, limit) ui_limits -> 0 < d ->
  (d <= limit ->
   exists total, ui_total d label = inr total
                 /\ fleb total (of_Z 95) = true /\ nonneg_float total)
  /\ (limit < d ->
      forall total, ui_total d label = inr total -> fleb total (of_Z 95) = false).
Proof.
  intros Hin Hd.
  destruct (ui_limits_option label limit Hin) as [tier Hopt].
  assert (Hedge :
    0 < limit
    /\ (exists tA, ui_total limit label = inr tA /\ fleb tA (of_Z 95) = true)
    /\ (exists tB, ui_total (limit + 1) label = inr tB
                   /\ fleb tB (of_Z 95) = false)).
  { simpl in Hin. destruct Hin as [E | [E | [E | []]]]; injection E as <- <-;
      (split; [reflexivity | ]);
      (split; eexists; (split; [vm_compute; reflexivity | reflexivity])). }
  destruct Hedge as (Hlim & (tA & HtA & HleA) & (tB & HtB & HleB)).
  split.
  - intros Hle.
    destruct (ui_total_mono label tier d limit tA Hopt Hd Hle HtA)
      as (t & Ht & Hval & Nt & NA).
    exists t. split; [exact Ht | split; [ | exact Nt]].
    apply fleb_95; [exact Nt | ].
    apply (fleb_95 tA NA) in HleA. lia.
  - intros Hlt total Htot.
    destruct (ui_total_mono label tier (limit + 1) d total Hopt) as (t & Ht & Hval & Nt & Ntot);
      [lia | lia | exact Htot | ].
    rewrite HtB in Ht. injection Ht as <-.
    destruct (fleb total (of_Z 95)) eqn:E; [ | reflexivity].
    apply (fleb_95 total Ntot) in E.
    assert (Hc : fleb tB (of_Z 95) = true) by (apply fleb_95; [exact Nt | lia]).
    congruence.
Qed.

(** *** Rounding and the time of arrival *)

Lemma py_round_nonneg (f : spec_float) :
  nonneg_float f -> fval f < top -> exists r, py_round f = inr r /\ 0 <= r.
Proof.
  intros Hn Hfin. destruct (nonneg_float_cases f Hn) as [[s ->] | [Hf | ->]].
  - exists 0. split; [reflexivity | lia].
  - destruct f as [ | | | [ | ] m e]; cbn [pos_finite] in Hf; try tauto.
    eexists. split; [reflexivity | ]. cbn [cond_Zopp].
    destruct (Z.leb_spec 0 e) as [He | He].
    + pose proof (pow2_pos e He). lia.
    + pose proof (pow2_pos (- e) ltac:(lia)) as Hp.
      pose proof (rne_div_bounds (Z.pos m) (2 ^ (- e))) as Hb.
      assert (0 <= Z.pos m / 2 ^ (- e)) by (apply Z.div_pos; lia). lia.
  - simpl in Hfin. lia.
Qed.

(** On the distances 1 to 1000 the time of arrival is the integer
    nearest to [4 d / 3]. *)
Lemma ui_eta_range (d : Z) :
  1 <= d <= 1000 -> ui_eta d = inr ((8 * d + 3) / 6).
Proof.
  intros Hd.
  assert (Hall :
    forallb (fun d => match ui_eta d with
                      | inr eta => eta =? (8 * d + 3) / 6
                      | inl _ => false
                      end) (seqZ 1 1000) = true) by (vm_compute; reflexivity).
  rewrite forallb_forall in Hall.
  assert (Hin : In d (seqZ 1 1000)) by (apply list_elem_of_In, elem_of_seqZ; lia).
  specialize (Hall d Hin).
  destruct (ui_eta d) as [e | eta]; [discriminate Hall | ].
  apply Z.eqb_eq in Hall. congruence.
Qed.

(** *** Runs of the simulation *)

Lemma simulate_unsafe (location complexity weather : string) (distance : Z)
    (w w1 : world) :
  weather_ok weather w = (inr false, w1) ->
  simulate location distance complexity weather w
  = mkRun
      [log_entry "STEP 1: Environment Analysis" [Lit "🌍 Checking Conditions..."]
         [Lit "Analyzing safety for "; Fmt (VStr location)] "info";
       log_entry "STEP 1: Environment Analysis" [Lit "❌ CONDITIONS UNSAFE"]
         [Lit "Detected severe conditions"] "error"]
      (Some (mkPanel "result-panel error"
               [Lit "❌ TASK REJECTED — Unsafe environmental conditions"]))
      Stopped w1.
Proof. intros H. unfold simulate. rewrite H. reflexivity. Qed.

Lemma simulate_raises (location complexity weather : string) (distance : Z)
    (w w1 : world) (e : exn) :
  weather_ok weather w = (inr true, w1) ->
  (do total <- ui_total distance complexity;
   do percent <- py_round total; inr (total, percent)) = inl e ->
  let run := simulate location distance complexity weather w in
  ending run = Raised e /\ length (page run) = 3%nat /\ result_box run = None
  /\ rng run = w1.
Proof.
  intros H He. unfold simulate. rewrite H. cbv zeta. rewrite He.
  repeat split.
Qed.

Lemma simulate_insufficient (location complexity weather : string) (distance : Z)
    (w w1 : world) (total : spec_float) (percent : Z) :
  weather_ok weather w = (inr true, w1) ->
  ui_total distance complexity = inr total ->
  py_round total = inr percent ->
  fleb total (of_Z 95) = false ->
  let run := simulate location distance complexity weather w in
  ending run = Stopped
  /\ page_steps run
     = ["STEP 1: Environment Analysis"; "STEP 1: Environment Analysis";
        "STEP 2: Resource Calculation"; "STEP 2: Resource Calculation";
        "STEP 3: Resource Selection"]
  /\ page_classes run = [""; "success"; ""; "success"; "error"]
  /\ result_box run
     = Some (mkPanel "result-panel error"
               [Lit "❌ TASK REJECTED — Insufficient resources"])
  /\ rng run = w1.
Proof.
  intros H Ht Hp Hf. unfold simulate. rewrite H. cbv zeta.
  rewrite Ht. cbn [ebind]. rewrite Hp. cbn [ebind]. rewrite Hf.
  repeat split.
Qed.

Lemma simulate_approved (location complexity weather : string) (distance : Z)
    (w w1 : world) (total : spec_float) (percent eta : Z) :
  weather_ok weather w = (inr true, w1) ->
  ui_total distance complexity = inr total ->
  py_round total = inr percent ->
  fleb total (of_Z 95) = true ->
  ui_eta distance = inr eta ->
  let run := simulate location distance complexity weather w in
  ending run = Completed
  /\ page_steps run
     = ["STEP 1: Environment Analysis"; "STEP 1: Environment Analysis";
        "STEP 2: Resource Calculation"; "STEP 2: Resource Calculation";
        "STEP 3: Resource Selection"; "STEP 4: Path Planning";
        "STEP 5: Final Decision"]
  /\ page_classes run
     = [""; "success"; ""; "success"; "success"; "success"; "success"]
  /\ result_box run = Some (approved_panel percent eta location)
  /\ rng run = w1.
Proof.
  intros H Ht Hp Hf He. unfold simulate. rewrite H. cbv zeta.
  rewrite Ht. cbn [ebind]. rewrite Hp. cbn [ebind]. rewrite Hf, He.
  repeat split.
Qed.

Lemma weather_ok_returns (weather : string) (w : world) :
  exists ok w1, weather_ok weather w = (inr ok, w1).
Proof.
  rewrite weather_ok_run.
  destruct (contains "Favorable" weather); [eauto | ].
  destruct (contains "Moderate" weather); eauto.
Qed.

Lemma ui_limits_bound (label : string) (limit : Z) :
  In (label, limit) ui_limits -> 39 <= limit <= 63.
Proof. simpl. intros [E | [E | [E | []]]]; injection E as <- <-; lia. Qed.

(** X15. For each option of the complexity selector and every positive
    distance, the simulation runs to its end, with the approval, exactly
    when the weather gate passes and the distance is at most 63 (low), 48
    (medium) or 39 (high), the largest distances whose total load is at
    most 95. *)
Theorem simulate_completes_iff (location weather label : string) (d limit : Z)
    (w : world) :
  In (label, limit) ui_limits -> 0 < d ->
  (ending (simulate location d label weather w) = Completed
   <-> fst (weather_ok weather w) = inr true /\ d <= limit).
Proof.
  intros Hin Hd.
  destruct (ui_threshold d limit label Hin Hd) as [Hbelow Habove].
  destruct (weather_ok_returns weather w) as (ok & w1 & Hw). rewrite Hw. cbn [fst].
  destruct ok.
  2:{ rewrite (simulate_unsafe _ _ _ _ _ _ Hw). cbn [ending].
      split; [intros H; discriminate H | intros [H _]; discriminate H]. }
  split.
  - intros Hc. split; [reflexivity | ].
    destruct (Z.le_gt_cases d limit) as [Hle | Hlt]; [exact Hle | exfalso].
    destruct (do total <- ui_total d label;
              do percent <- py_round total; inr (total, percent))
      as [e | [total percent]] eqn:Hv.
    + destruct (simulate_raises location label weather d w w1 e Hw Hv) as [E _].
      rewrite E in Hc. discriminate Hc.
    + destruct (ui_total d label) as [e | t] eqn:Ht; [discriminate Hv | ].
      cbn [ebind] in Hv.
      destruct (py_round t) as [e | p] eqn:Hp; [discriminate Hv | ].
      injection Hv as <- <-.
      destruct (simulate_insufficient location label weather d w w1 t p Hw Ht Hp
                  (Habove Hlt t eq_refl)) as [E _].
      rewrite E in Hc. discriminate Hc.
  - intros [_ Hle]. destruct (Hbelow Hle) as (total & Ht & Hf & Hn).
    assert (Hfin : fval total < top).
    { apply (fleb_95 total Hn) in Hf.
      assert (fval (of_Z 95) < top) by (vm_compute; reflexivity). lia. }
    destruct (py_round_nonneg total Hn Hfin) as (p & Hp & _).
    pose proof (ui_limits_bound label limit Hin) as Hb.
    assert (Heta : ui_eta d = inr ((8 * d + 3) / 6)) by (apply ui_eta_range; lia).
    destruct (simulate_approved location label weather d w w1 total p _ Hw Ht Hp Hf
                Heta) as [E _].
    exact E.
Qed.

Lemma simulate_completes_iff_witness :
  ending (simulate "Solar Farm Alpha" 25 "Medium - Standard operation"
            "Favorable (Clear, Low Wind)" world0) = Completed
  <-> fst (weather_ok "Favorable (Clear, Low Wind)" world0) = inr true /\ 25 <= 48.
Proof.
  apply (simulate_completes_iff "Solar Farm Alpha" "Favorable (Clear, Low Wind)"
           "Medium - Standard operation" 25 48 world0).
  - right. left. reflexivity.
  - lia.
Defined.

(** The values that the simulation computes on the form: the distances
    of the slider and the three options of the selector. *)
Lemma form_values (d limit : Z) (label : string) :
  In (label, limit) ui_limits -> 5 <= d <= 100 ->
  exists total percent,
    ui_total d label = inr total
    /\ py_round total = inr percent
    /\ fleb total (of_Z 95) = (d <=? limit)
    /\ 8 <= percent <= 240
    /\ (d <= limit -> percent <= 95).
Proof.
  intros Hin Hd.
  assert (Hall :
    forallb
      (fun d =>
         forallb
           (fun o =>
              match ui_total d (fst o) with
              | inr total =>
                  match py_round total with
                  | inr percent =>
                      Bool.eqb (fleb total (of_Z 95)) (d <=? snd o)
                      && (8 <=? percent) && (percent <=? 240)
                      && (negb (d <=? snd o) || (percent <=? 95))
                  | inl _ => false
                  end
              | inl _ => false
              end)
           ui_limits)
      (seqZ 5 96) = true) by (vm_compute; reflexivity).
  rewrite forallb_forall in Hall.
  assert (Hind : In d (seqZ 5 96)) by (apply list_elem_of_In, elem_of_seqZ; lia).
  specialize (Hall d Hind). rewrite forallb_forall in Hall.
  specialize (Hall (label, limit) Hin). cbn [fst snd] in Hall.
  destruct (ui_total d label) as [e | total]; [discriminate Hall | ].
  destruct (py_round total) as [e | percent] eqn:Hp; [discriminate Hall | ].
  apply andb_prop in Hall. destruct Hall as [Hall H4].
  apply andb_prop in Hall. destruct Hall as [Hall H3].
  apply andb_prop in Hall. destruct Hall as [H1 H2].
  apply Bool.eqb_prop in H1. apply Z.leb_le in H2, H3.
  exists total, percent.
  split; [reflexivity | split; [exact Hp | split; [exact H1 | split; [lia | ]]]].
  intros Hle. apply Z.leb_le in Hle. rewrite Hle in H4. apply Z.leb_le. exact H4.
Qed.

(** X16. On the values that the form can send (a distance of the slider,
    5 to 100, one of the three options, any weather label and location)
    the simulation never raises and ends in one of three pages: two
    entries and the panel of the unsafe conditions when the weather gate
    fails; five entries, the last one an error, and the panel of the
    insufficient resources when the distance exceeds the limit of the
    option; otherwise seven entries and the panel of the approval, which
    shows a load between 8 and 95 percent and the time of arrival
    [(8 d + 3) / 6]. *)
Theorem simulate_on_form (location weather label : string) (d limit : Z) (w : world) :
  In (label, limit) ui_limits -> 5 <= d <= 100 ->
  let run := simulate location d label weather w in
  exists ok,
    weather_ok weather w = (inr ok, rng run)
    /\ if ok then
         if d <=? limit then
           ending run = Completed
           /\ page_steps run
              = ["STEP 1: Environment Analysis"; "STEP 1: Environment Analysis";
                 "STEP 2: Resource Calculation"; "STEP 2: Resource Calculation";
                 "STEP 3: Resource Selection"; "STEP 4: Path Planning";
                 "STEP 5: Final Decision"]
           /\ page_classes run
              = [""; "success"; ""; "success"; "success"; "success"; "success"]
           /\ exists percent,
                8 <= percent <= 95
                /\ result_box run
                   = Some (approved_panel percent ((8 * d + 3) / 6) location)
         else
           ending run = Stopped
           /\ page_steps run
              = ["STEP 1: Environment Analysis"; "STEP 1: Environment Analysis";
                 "STEP 2: Resource Calculation"; "STEP 2: Resource Calculation";
                 "STEP 3: Resource Selection"]
           /\ page_classes run = [""; "success"; ""; "success"; "error"]
           /\ result_box run
              = Some (mkPanel "result-panel error"
                        [Lit "❌ TASK REJECTED — Insufficient resources"])
       else
         ending run = Stopped
         /\ page_steps run
            = ["STEP 1: Environment Analysis"; "STEP 1: Environment Analysis"]
         /\ page_classes run = [""; "error"]
         /\ result_box run
            = Some (mkPanel "result-panel error"
                      [Lit "❌ TASK REJECTED — Unsafe environmental conditions"]).
Proof.
  intros Hin Hd run.
  destruct (weather_ok_returns weather w) as (ok & w1 & Hw).
  exists ok. unfold run. destruct ok.
  - destruct (form_values d limit label Hin Hd)
      as (total & percent & Ht & Hp & Hf & Hb & Hcap).
    destruct (Z.leb_spec d limit) as [Hle | Hlt].
    + assert (Heta : ui_eta d = inr ((8 * d + 3) / 6)) by (apply ui_eta_range; lia).
      destruct (simulate_approved location label weather d w w1 total percent _
                  Hw Ht Hp Hf Heta) as (E1 & E2 & E3 & E4 & E5).
      rewrite E5. split; [exact Hw | ].
      split; [exact E1 | split; [exact E2 | split; [exact E3 | ]]].
      exists percent. split; [ | exact E4]. specialize (Hcap Hle). lia.
    + destruct (simulate_insufficient location label weather d w w1 total percent
                  Hw Ht Hp Hf) as (E1 & E2 & E3 & E4 & E5).
      rewrite E5. auto.
  - rewrite (simulate_unsafe _ _ _ _ _ _ Hw). cbn [rng ending result_box].
    split; [exact Hw | repeat split].
Qed.

Lemma simulate_on_form_witness :
  ending (simulate "Solar Farm Alpha" 25 "Medium - Standard operation"
            "Favorable (Clear, Low Wind)" world0) = Completed.
Proof.
  destruct (simulate_on_form "Solar Farm Alpha" "Favorable (Clear, Low Wind)"
              "Medium - Standard operation" 25 48 world0) as (ok & Hw & H).
  - right. left. reflexivity.
  - lia.
  - destruct ok.
    + change (25 <=? 48) with true in H. cbv iota in H. exact (proj1 H).
    + vm_compute in Hw. discriminate Hw.
Defined.

(** X17. On the distances of the slider the time of arrival
    [round((distance / 45) * 60)] is the integer nearest to [4 d / 3]
    minutes, between 7 and 133; it depends on the distance only. *)
Theorem ui_eta_slider (d : Z) :
  5 <= d <= 100 ->
  ui_eta d = inr ((8 * d + 3) / 6)
  /\ 7 <= (8 * d + 3) / 6 <= 133
  /\ 6 * ((8 * d + 3) / 6) - 3 <= 8 * d <= 6 * ((8 * d + 3) / 6) + 3.
Proof.
  intros Hd. split; [apply ui_eta_range; lia | ].
  pose proof (Z.div_mod (8 * d + 3) 6 ltac:(lia)) as Hdm.
  pose proof (Z.mod_pos_bound (8 * d + 3) 6 ltac:(lia)) as Hm.
  lia.
Qed.

Lemma ui_eta_slider_witness : ui_eta 25 = inr 33.
Proof.
  destruct (ui_eta_slider 25) as [H _]; [lia | exact H].
Defined.

(** X18. The two variants disagree on a band of distances: for each
    option of the selector and every positive distance, the browser
    variant finds the resource sufficient while the console variant finds
    no drone for the same distance and tier exactly when the distance is
    above the console limit and at most the browser limit: 57 to 63
    (low), 44 to 48 (medium), 36 to 39 (high). *)
Theorem variants_disagree (d lo hi : Z) (label tier : string) (duration : pyval) :
  In (label, tier, lo, hi) variant_limits -> 0 < d ->
  ((exists total, ui_total d label = inr total /\ fleb total (of_Z 95) = true)
   /\ (forall required_capacity,
         calculate_resource_requirement (VInt d) (VStr tier) duration
         = inr required_capacity ->
         selection (VStr "drone") required_capacity = None))
  <-> lo < d <= hi.
Proof.
  intros Hin Hd.
  assert (Hui : In (label, hi) ui_limits /\ In (100, tier, lo) distance_limits).
  { simpl in Hin. destruct Hin as [E | [E | [E | []]]]; injection E as <- <- <- <-;
      simpl; tauto. }
  destruct Hui as [Hui Hco].
  destruct (ui_threshold d hi label Hui Hd) as [Hbelow Habove].
  pose proof (distance_threshold d 100 lo tier duration Hco Hd) as Hdrone.
  split.
  - intros [(total & Ht & Hf) Hnone]. split.
    + destruct (Z.lt_ge_cases lo d) as [Hlt | Hge]; [exact Hlt | exfalso].
      destruct (proj2 Hdrone ltac:(lia)) as (rc & Hcalc & Hcap).
      specialize (Hnone rc Hcalc). rewrite selection_top in Hnone.
      change (table_capacity (VStr "drone")) with 100 in Hnone.
      destruct (Z.leb_spec rc 100); [discriminate Hnone | lia].
    + destruct (Z.le_gt_cases d hi) as [Hle | Hgt]; [exact Hle | exfalso].
      rewrite (Habove Hgt total Ht) in Hf. discriminate Hf.
  - intros [Hlo Hhi]. split.
    + destruct (Hbelow Hhi) as (total & Ht & Hf & _). eauto.
    + intros rc Hcalc. rewrite selection_top.
      change (table_capacity (VStr "drone")) with 100.
      destruct (Z.leb_spec rc 100) as [Hcap | Hcap]; [ | reflexivity].
      exfalso. assert (d <= lo); [ | lia].
      apply Hdrone. eauto.
Qed.

Lemma variants_disagree_witness :
  ((exists total, ui_total 45 "Medium - Standard operation" = inr total
                  /\ fleb total (of_Z 95) = true)
   /\ (forall required_capacity,
         calculate_resource_requirement (VInt 45) (VStr "medium") (VInt 0)
         = inr required_capacity ->
         selection (VStr "drone") required_capacity = None))
  <-> 43 < 45 <= 48.
Proof.
  apply (variants_disagree 45 43 48 "Medium - Standard operation" "medium" (VInt 0)).
  - right. left. reflexivity.
  - lia.
Defined.







(** X21. A request without any key is evaluated with the defaults of
    the source: a drone mission for a drone, no distance, no duration and
    the medium tier.  The evaluation never raises; it approves exactly
    when the weather reading is safe, with the drone of capacity 100 for
    a requirement of 46 and a plan from "Base" to "Target", and
    otherwise rejects for unsafe weather with a wind of 5 to 35 km/h. *)
Theorem empty_request_defaults (self : Agent) (w : world) :
  let l := decision_log self in
  exists decision w',
    make_autonomous_decision self ∅ w = (inr decision, w')
    /\ task_approved decision = safe (drone_reading w)
    /\ (task_approved decision = true ->
        exists plan,
          decision
          = Approved "RESOURCE-004"
              [Fmt (VInt 100); Lit "% (required: "; Fmt (VInt 46); Lit "%)"]
              plan favorable
              [Fmt (VInt (estimated_duration_min plan)); Lit " minutes"] l
          /\ start plan = VStr "Base" /\ finish plan = VStr "Target")
    /\ (task_approved decision = false ->
        exists wind,
          5 <= wind <= 35
          /\ decision
             = Rejected [Lit "Unsafe weather: Wind "; Fmt (VInt wind); Lit " km/h"] l).
Proof.
  intros l.
  pose proof (make_autonomous_decision_cases self ∅ w) as H. cbv zeta in H.
  change (task_type_of ∅) with (VStr "drone_mission") in H.
  change (reading_of (VStr "drone_mission") w) with (drone_reading w) in H.
  change (requirement_of ∅) with (@inr exn Z 46) in H.
  change (resource_type_of ∅) with (VStr "drone") in H.
  fold l in H.
  destruct (safe (drone_reading w)) eqn:Hsafe.
  - destruct H as (e3 & _ & _ & H).
    change (selection (VStr "drone") 46) with (Some resource_004) in H.
    destruct H as (_ & plan & e4 & Hplan & _ & _ & _ & Hres).
    destruct (plan_execution_path_steps self ∅
                (logged (logged (logged (advance 9 w) l
                                   (environment_entry w true favorable)) l
                           (requirement_entry
                              (logged (advance 9 w) l
                                 (environment_entry w true favorable)) ∅ 46)) l e3))
      as (plan' & Hplan' & _ & _ & _ & _ & _ & Hs & Hf & _).
    rewrite Hplan in Hplan'. injection Hplan' as <-.
    eexists. eexists. split; [exact Hres | ].
    cbn [task_approved]. split; [reflexivity | split].
    + intros _. exists plan. split; [reflexivity | split; [exact Hs | exact Hf]].
    + intros Hf'. discriminate Hf'.
  - eexists. eexists. split; [exact H | ].
    cbn [task_approved]. split; [reflexivity | split].
    + intros Hf. discriminate Hf.
    + intros _. unfold reason_of.
      change (reading_of (VStr "drone_mission") w) with (drone_reading w).
      rewrite Hsafe. cbn [py_eq_str String.eqb Ascii.eqb Bool.eqb].
      eexists. split; [ | reflexivity]. exact (randint_range 5 35 w 2 ltac:(lia)).
Qed.



(** ** Instances of the earlier lemmas *)

Lemma console_total_is_ui_total_with_margin_witness :
  calculate_resource_requirement (VInt 25) (VStr "medium") (VInt 0)
  = do total <- ui_total 25 "Medium - Standard operation"; py_int (fmul total f1_2).
Proof.
  apply (console_total_is_ui_total_with_margin 25 "Medium - Standard operation"
           "medium" (VInt 0)).
  - lia.
  - constructor.
Defined.

